(** * Computing Flow Op: a shallow embedding of
      [lib/computing_flow_layer/computing_flow_op.cc]

    The forward CPU kernel [ComputeFlowOp<CPUDevice, T>::Compute], the
    construction-time attribute checks of [ComputeFlowOp] (CPU and GPU
    specialisations) and [ComputeFlowGradOp], and the validation done by
    the accelerator kernels before they call the device launchers are
    embedded below.

    Modelling conventions.
    - The template parameter [T] (registered for [float] and [double]) is a
      type with the operations of the class [Scalar]; the order facts the
      proofs need are collected in [ScalarLaws].  The [double] instantiation
      is given by Rocq's primitive binary64 floats.
    - A flat tensor ([Tensor::flat<T>()]) is a [list T]; an access outside
      of that list is undefined behaviour in the source (Eigen does not check
      bounds in release builds) and is the error [OutOfRange] in the model.
    - C++ [int] expressions are computed in [Z]; executions in which an
      [int] expression leaves the 32-bit range are undefined behaviour in
      the source and outside this model.  The statements that say that the
      kernel returns, or that a neighbour is selected, assume that the
      sizes, the loop bounds and the flat indices stay in that range
      ([in_int_range], [search_in_int_range]).
    - The attribute [threshold_] has C++ type [float]; the comparison
      [dmin < threshold_] is carried out in [T] after the usual arithmetic
      conversion, which is exact.  The model stores the converted value. *)

From Stdlib Require Import ZArith Lia Bool String.
From Stdlib Require Import Floats.
From stdpp Require Import base list.

Local Open Scope Z_scope.

(** ** Status and fallible computations *)

Inductive Status : Type :=
  | InvalidArgument (msg : string)
  | OutOfRange.

Inductive result (A : Type) : Type :=
  | Ok (a : A)
  | Err (e : Status).

Arguments Ok {A} a.
Arguments Err {A} e.

Definition bind {A B : Type} (c : result A) (k : A -> result B) : result B :=
  match c with
  | Ok a => k a
  | Err e => Err e
  end.

Notation "'let*' x ':=' c 'in' k" := (bind c (fun x => k))
  (at level 10, x pattern, c at level 100, k at level 200).

(** [OP_REQUIRES(context, cond, status)]: record [status] and return when
    [cond] is false. *)
Definition OP_REQUIRES (cond : bool) (status : Status) : result unit :=
  if cond then Ok tt else Err status.

(** ** The scalar type [T] of the template *)

Class Scalar (T : Type) : Type := {
  of_int : Z -> T;          (* conversion of an [int] to [T] *)
  NAN : T;                  (* the macro [NAN] converted to [T] *)
  fadd : T -> T -> T;
  fsub : T -> T -> T;
  fmul : T -> T -> T;
  fsqrt : T -> T;
  flt : T -> T -> bool;     (* [a < b] *)
  fle : T -> T -> bool;     (* [a <= b] *)
  fisnan : T -> bool        (* [std::isnan] *)
}.

Declare Scope scalar_scope.
Delimit Scope scalar_scope with S.
Infix "+" := fadd : scalar_scope.
Infix "-" := fsub : scalar_scope.
Infix "*" := fmul : scalar_scope.
Infix "<?" := flt : scalar_scope.
Infix "<=?" := fle : scalar_scope.

(** [a > b] is [b < a] and [a >= b] is [b <= a]. *)
Definition fgt {T} `{Scalar T} (a b : T) : bool := flt b a.
Definition fge {T} `{Scalar T} (a b : T) : bool := fle b a.

(** The order facts of IEEE comparisons used by the proofs. *)
Class ScalarLaws (T : Type) `{Scalar T} : Prop := {
  fisnan_NAN : fisnan NAN = true;
  flt_trans : forall x y z : T, flt x y = true -> flt y z = true -> flt x z = true;
  fle_flt_trans : forall x y z : T, fle x y = true -> flt y z = true -> flt x z = true;
  flt_fle : forall x y : T, flt x y = true -> fle x y = true;
  flt_not_fle : forall x y : T, flt x y = true -> fle y x = false;
  flt_not_nan : forall x y : T, flt x y = true -> fisnan x = false /\ fisnan y = false;
  fle_total : forall x y : T,
    fisnan x = false -> fisnan y = false -> flt x y = false -> fle y x = true;
  fmul_one_r : forall x : T, fmul x (of_int 1) = x
}.

(** ** Loops *)

(** [count] iterations of [body], the loop variable starting at [i] and
    incremented after each iteration. *)
Fixpoint for_loop {St : Type} (count : nat) (i : Z)
    (body : Z -> St -> result St) (s : St) : result St :=
  match count with
  | O => Ok s
  | S k => let* s' := body i s in for_loop k (i + 1) body s'
  end.

(** [for (int i = lo; i < hi; i++)] *)
Definition for_lt {St : Type} (lo hi : Z) := @for_loop St (Z.to_nat (hi - lo)) lo.

(** [for (int i = lo; i <= hi; i++)] *)
Definition for_le {St : Type} (lo hi : Z) := @for_loop St (Z.to_nat (hi + 1 - lo)) lo.

(** ** Tensors *)

Section Tensors.
Context {T : Type}.

Record Tensor : Type := { shape : list Z; flat : list T }.

Definition dims (t : Tensor) : Z := Z.of_nat (length (shape t)).

Definition dim_size (t : Tensor) (i : nat) : Z := nth i (shape t) 0.

Definition num_elements (sh : list Z) : Z := fold_right Z.mul 1 sh.

(** [buf(i)] as an rvalue. *)
Definition read (buf : list T) (i : Z) : result T :=
  if i <? 0 then Err OutOfRange
  else match buf !! Z.to_nat i with
       | Some v => Ok v
       | None => Err OutOfRange
       end.

(** [buf(i) = v]. *)
Definition write (buf : list T) (i : Z) (v : T) : result (list T) :=
  if (0 <=? i) && (i <? Z.of_nat (length buf))
  then Ok (<[Z.to_nat i := v]> buf)
  else Err OutOfRange.

(** [context->allocate_output(_, shape, &t)]: the memory is not
    initialised; [heap k] is whatever the [k]-th cell holds. *)
Definition allocate_output (heap : nat -> T) (sh : list Z) : Tensor :=
  {| shape := sh; flat := map heap (seq 0 (Z.to_nat (num_elements sh))) |}.
End Tensors.

Arguments Tensor T : clear implicits.

(** ** Operator construction

    The three constructors read the attributes [kernel_size] and
    [threshold] and check them with [OP_REQUIRES]; the formatted value that
    the source appends to the message is left out of the message text. *)

Section Construction.
Context {T : Type} `{Scalar T}.

Record ComputeFlowOp : Type := { kernel_size_ : Z; threshold_ : T }.

Record ComputeFlowGradOp : Type := { grad_kernel_size_ : Z; grad_threshold_ : T }.

(** [ComputeFlowOp<Device, T>::ComputeFlowOp] (lines 54-67). *)
Definition ComputeFlowOp_ctor (kernel_size : Z) (threshold : T) : result ComputeFlowOp :=
  let* _ := OP_REQUIRES (kernel_size >=? 0)
              (InvalidArgument "Need kernel_size >= 0, got ") in
  let* _ := OP_REQUIRES (fge threshold (of_int 0))
              (InvalidArgument "Need threshold >= 0, got ") in
  Ok {| kernel_size_ := kernel_size; threshold_ := threshold |}.

(** [ComputeFlowOp<Eigen::GpuDevice, T>::ComputeFlowOp] (lines 261-274). *)
Definition ComputeFlowOp_GPU_ctor (kernel_size : Z) (threshold : T) : result ComputeFlowOp :=
  let* _ := OP_REQUIRES (kernel_size >=? 0)
              (InvalidArgument "Need kernel_size >= 0, got ") in
  let* _ := OP_REQUIRES (fge threshold (of_int 0))
              (InvalidArgument "Need threshold >= 0, got ") in
  Ok {| kernel_size_ := kernel_size; threshold_ := threshold |}.

(** [ComputeFlowGradOp<Device, T>::ComputeFlowGradOp] (lines 359-372). *)
Definition ComputeFlowGradOp_ctor (kernel_size : Z) (threshold : T) : result ComputeFlowGradOp :=
  let* _ := OP_REQUIRES (kernel_size >=? 0)
              (InvalidArgument "Need kernel_size >= 0, got ") in
  let* _ := OP_REQUIRES (fge threshold (of_int 0))
              (InvalidArgument "Need threshold >= 0, got ") in
  Ok {| grad_kernel_size_ := kernel_size; grad_threshold_ := threshold |}.
End Construction.

Arguments ComputeFlowOp T : clear implicits.
Arguments ComputeFlowGradOp T : clear implicits.

(** ** The forward CPU kernel, [ComputeFlowOp<CPUDevice, T>::Compute] *)

Section Forward.
Context {T : Type} `{Scalar T}.

(** The private members of the operator. *)
Variable op : ComputeFlowOp T.

(** The flat views of the four inputs and the sizes read from their
    shapes. *)
Variables bottom_data_flat im_points im_depth meta_data : list T.
Variables height width num_channels : Z.

(** The running minimum of the neighbourhood search with the pixel that
    achieves it. *)
Record best : Type := { dmin : T; fx : Z; fy : Z }.

(** Lines 177-179: [T dmin = 1000.0; int fx = -1; int fy = -1;].  The
    literal [1000.0] is an integer that [T] represents exactly. *)
Definition best_init : best := {| dmin := of_int 1000; fx := -1; fy := -1 |}.

(** Line 194. *)
Definition distance (X1 Y1 Z1 X_prev Y_prev Z_prev : T) : T :=
  fsqrt ((X1 - X_prev) * (X1 - X_prev) + (Y1 - Y_prev) * (Y1 - Y_prev)
         + (Z1 - Z_prev) * (Z1 - Z_prev))%S.

(** Lines 184-201: the body of the two neighbourhood loops. *)
Definition neighbor (n : Z) (X1 Y1 Z1 : T) (x y : Z) (b : best) : result best :=
  if (x >=? 0) && (x <? width) && (y >=? 0) && (y <? height) then
    let index := n * height * width + y * width + x in
    let* X_prev := read im_points (index * 3 + 0) in
    let* Y_prev := read im_points (index * 3 + 1) in
    let* Z_prev := read im_points (index * 3 + 2) in
    if fisnan X_prev || fisnan Y_prev || fisnan Z_prev then Ok b
    else
      let dis := distance X1 Y1 Z1 X_prev Y_prev Z_prev in
      if (dis <? dmin b)%S then Ok {| dmin := dis; fx := x; fy := y |}
      else Ok b
  else Ok b.

(** Lines 177-203: check a neighborhood around (w, h). *)
Definition search (n h w : Z) (X1 Y1 Z1 : T) : result best :=
  for_le (w - kernel_size_ op) (w + kernel_size_ op)
    (fun x b =>
       for_le (h - kernel_size_ op) (h + kernel_size_ op)
         (fun y b => neighbor n X1 Y1 Z1 x y b) b)
    best_init.

(** Lines 158-170: backproject the pixel into 3D and apply
    pose_live2world. *)
Definition backproject (index_meta_data h w : Z) (depth : T) : result (T * T * T) :=
  let meta i := read meta_data (index_meta_data + i) in
  let* m9 := meta 9 in let* m10 := meta 10 in let* m11 := meta 11 in
  let RX := (m9 * of_int w + m10 * of_int h + m11)%S in
  let* m12 := meta 12 in let* m13 := meta 13 in let* m14 := meta 14 in
  let RY := (m12 * of_int w + m13 * of_int h + m14)%S in
  let* m15 := meta 15 in let* m16 := meta 16 in let* m17 := meta 17 in
  let RZ := (m15 * of_int w + m16 * of_int h + m17)%S in
  let X := (depth * RX)%S in
  let Y := (depth * RY)%S in
  let Z := (depth * RZ)%S in
  let* m30 := meta 30 in let* m31 := meta 31 in
  let* m32 := meta 32 in let* m33 := meta 33 in
  let X1 := (m30 * X + m31 * Y + m32 * Z + m33)%S in
  let* m34 := meta 34 in let* m35 := meta 35 in
  let* m36 := meta 36 in let* m37 := meta 37 in
  let Y1 := (m34 * X + m35 * Y + m36 * Z + m37)%S in
  let* m38 := meta 38 in let* m39 := meta 39 in
  let* m40 := meta 40 in let* m41 := meta 41 in
  let Z1 := (m38 * X + m39 * Y + m40 * Z + m41)%S in
  Ok (X1, Y1, Z1).

(** Lines 144-212: the body of the loop over [w]; the state is the pair
    of output buffers [(top_data, top_points)]. *)
Definition pixel (n h w index_meta_data : Z) (out : list T * list T)
    : result (list T * list T) :=
  let '(top_data, top_points) := out in
  let index_pixel := n * height * width + h * width + w in
  (* initialization *)
  let* top_data :=
    for_lt 0 num_channels
      (fun c td => write td (index_pixel * num_channels + c) (of_int 0)) top_data in
  let* top_points := write top_points (index_pixel * 3 + 0) NAN in
  let* top_points := write top_points (index_pixel * 3 + 1) NAN in
  let* top_points := write top_points (index_pixel * 3 + 2) NAN in
  let* depth := read im_depth index_pixel in
  if fgt depth (of_int 0) then
    let* (X1, Y1, Z1) := backproject index_meta_data h w depth in
    let* top_points := write top_points (index_pixel * 3 + 0) X1 in
    let* top_points := write top_points (index_pixel * 3 + 1) Y1 in
    let* top_points := write top_points (index_pixel * 3 + 2) Z1 in
    let* b := search n h w X1 Y1 Z1 in
    if (dmin b <? threshold_ op)%S then
      (* assign data *)
      let index := n * height * width + fy b * width + fx b in
      let* top_data :=
        for_lt 0 num_channels
          (fun c td =>
             let* v := read bottom_data_flat (index * num_channels + c) in
             write td (index_pixel * num_channels + c) v) top_data in
      Ok (top_data, top_points)
    else Ok (top_data, top_points)
  else Ok (top_data, top_points).

(** Lines 137-216: the three loops; the state of the outer loop carries
    [index_meta_data] next to the output buffers. *)
Definition batch (num_meta_data : Z) (n : Z) (s : list T * list T * Z)
    : result (list T * list T * Z) :=
  let '(out, index_meta_data) := s in
  let* out :=
    for_lt 0 height
      (fun h out =>
         for_lt 0 width (fun w out => pixel n h w index_meta_data out) out) out in
  Ok (out, index_meta_data + num_meta_data).

Definition pixel_loops (batch_size num_meta_data : Z) (out : list T * list T)
    : result (list T * list T) :=
  let* (out, _) := for_lt 0 batch_size (batch num_meta_data) (out, 0) in
  Ok out.
End Forward.

Section Compute.
Context {T : Type} `{Scalar T}.

(** Lines 70-217.  [heap0] and [heap1] are the contents of the memory
    handed out for the two outputs. *)
Definition Compute (op : ComputeFlowOp T) (heap0 heap1 : nat -> T)
    (bottom_data bottom_points bottom_depth bottom_meta_data : Tensor T)
    : result (Tensor T * Tensor T) :=
  let bottom_data_flat := flat bottom_data in
  let im_points := flat bottom_points in
  let im_depth := flat bottom_depth in
  let meta_data := flat bottom_meta_data in
  let* _ := OP_REQUIRES (dims bottom_data =? 4)
              (InvalidArgument "data must be 4-dimensional") in
  let* _ := OP_REQUIRES (dims bottom_points =? 4)
              (InvalidArgument "points must be 4-dimensional") in
  let* _ := OP_REQUIRES (dims bottom_depth =? 4)
              (InvalidArgument "depth must be 4-dimensional") in
  let* _ := OP_REQUIRES (dims bottom_meta_data =? 4)
              (InvalidArgument "meta data must be 4-dimensional") in
  let batch_size := dim_size bottom_data 0 in
  let height := dim_size bottom_data 1 in
  let width := dim_size bottom_data 2 in
  let num_channels := dim_size bottom_data 3 in
  let num_meta_data := dim_size bottom_meta_data 3 in
  let output_shape := [batch_size; height; width; num_channels] in
  let top_data_tensor := allocate_output heap0 output_shape in
  let output_shape_1 := [batch_size; height; width; 3] in
  let top_points_tensor := allocate_output heap1 output_shape_1 in
  let* (top_data, top_points) :=
    pixel_loops op bottom_data_flat im_points im_depth meta_data
      height width num_channels batch_size num_meta_data
      (flat top_data_tensor, flat top_points_tensor) in
  Ok ({| shape := output_shape; flat := top_data |},
      {| shape := output_shape_1; flat := top_points |}).
End Compute.

(** ** The instantiation at [double]

    IEEE-754 binary64 with round-to-nearest-even, as provided by the
    kernel's primitive floats (no contraction of multiply-add). *)

Definition double_of_int (z : Z) : float :=
  if z <? 0 then PrimFloat.opp (PrimFloat.of_uint63 (Uint63.of_Z (- z)))
  else PrimFloat.of_uint63 (Uint63.of_Z z).

#[export] Instance double_Scalar : Scalar float := {|
  of_int := double_of_int;
  NAN := PrimFloat.nan;
  fadd := PrimFloat.add;
  fsub := PrimFloat.sub;
  fmul := PrimFloat.mul;
  fsqrt := PrimFloat.sqrt;
  flt := PrimFloat.ltb;
  fle := PrimFloat.leb;
  fisnan := PrimFloat.is_nan
|}.


(** The comparison of two binary64 values that are not NaN is the
    lexicographic comparison of the keys below. *)
Definition sf_key (f : spec_float) : Z * Z * Z :=
  match f with
  | S754_zero _ => (0, 0, 0)
  | S754_infinity s => (if s then -2 else 2, 0, 0)
  | S754_nan => (0, 0, 0)
  | S754_finite s m e => if s then (-1, - e, - Z.pos m) else (1, e, Z.pos m)
  end.

Definition lex3 (a b : Z * Z * Z) : comparison :=
  let '(a1, a2, a3) := a in
  let '(b1, b2, b3) := b in
  match a1 ?= b1 with
  | Eq => match a2 ?= b2 with Eq => a3 ?= b3 | c => c end
  | c => c
  end.

Definition sf_is_nan (f : spec_float) : bool :=
  match f with S754_nan => true | _ => false end.

(** * Vocabulary of the statements *)

Section Vocabulary.
Context {T : Type} `{Scalar T}.
Variables (im_points : list T) (height width : Z).

(** The flat index of pixel (row [y], column [x]) of batch element [n]. *)
Definition index_of (n y x : Z) : Z := n * height * width + y * width + x.

(** The three channels stored at a flat pixel index of a point field. *)
Definition point_at (points : list T) (index : Z) : option (T * T * T) :=
  match read points (index * 3 + 0), read points (index * 3 + 1),
        read points (index * 3 + 2) with
  | Ok X, Ok Y, Ok Z => Some (X, Y, Z)
  | _, _, _ => None
  end.

(** The test of line 190 on a point. *)
Definition undefined_point (p : T * T * T) : bool :=
  let '(X, Y, Z) := p in fisnan X || fisnan Y || fisnan Z.

(** A valid neighbour of the point [(X1, Y1, Z1)]: a pixel of the image
    whose previous-frame point is defined, with its distance. *)
Definition candidate (n : Z) (X1 Y1 Z1 : T) (x y : Z) : option T :=
  if (x >=? 0) && (x <? width) && (y >=? 0) && (y <? height) then
    match point_at im_points (index_of n y x) with
    | Some (X_prev, Y_prev, Z_prev) =>
        if undefined_point (X_prev, Y_prev, Z_prev) then None
        else Some (distance X1 Y1 Z1 X_prev Y_prev Z_prev)
    | None => None
    end
  else None.

(** The search window of pixel [(h, w)]. *)
Definition in_window (k h w x y : Z) : Prop :=
  w - k <= x <= w + k /\ h - k <= y <= h + k.

(** The scan order: outer loop over the column [x], inner loop over the
    row [y], both ascending. *)
Definition scanned_before (x y x' y' : Z) : Prop :=
  x < x' \/ (x = x' /\ y < y').

(** What the search has established when it is about to visit [(x0, y0)]. *)
Definition search_inv (k n h w : Z) (X1 Y1 Z1 : T) (x0 y0 : Z) (b : best) : Prop :=
  (b = best_init /\
   forall x y dis, in_window k h w x y -> scanned_before x y x0 y0 ->
     candidate n X1 Y1 Z1 x y = Some dis -> flt dis (of_int 1000) = false)
  \/
  (in_window k h w (fx b) (fy b) /\ scanned_before (fx b) (fy b) x0 y0 /\
   candidate n X1 Y1 Z1 (fx b) (fy b) = Some (dmin b) /\
   flt (dmin b) (of_int 1000) = true /\
   forall x y dis, in_window k h w x y -> scanned_before x y x0 y0 ->
     candidate n X1 Y1 Z1 x y = Some dis ->
     (scanned_before x y (fx b) (fy b) -> fle dis (dmin b) = false) /\
     (scanned_before (fx b) (fy b) x y -> flt dis (dmin b) = false)).

(** What the search has established at its end: either no valid
    neighbour is closer than 1000 and the sentinel is returned, or the
    result is the first valid neighbour in scan order among those at the
    least distance. *)
Definition search_post (k n h w : Z) (X1 Y1 Z1 : T) (b : best) : Prop :=
  (b = best_init /\
   forall x y dis, in_window k h w x y ->
     candidate n X1 Y1 Z1 x y = Some dis -> flt dis (of_int 1000) = false)
  \/
  (in_window k h w (fx b) (fy b) /\
   candidate n X1 Y1 Z1 (fx b) (fy b) = Some (dmin b) /\
   flt (dmin b) (of_int 1000) = true /\
   forall x y dis, in_window k h w x y ->
     candidate n X1 Y1 Z1 x y = Some dis ->
     (scanned_before x y (fx b) (fy b) -> fle dis (dmin b) = false) /\
     (scanned_before (fx b) (fy b) x y -> flt dis (dmin b) = false)).
End Vocabulary.

Section PixelVocabulary.
Context {T : Type} `{Scalar T}.
Variable op : ComputeFlowOp T.
Variables bottom_data_flat im_points im_depth meta_data : list T.
Variables height width num_channels : Z.

(** [l'] is [l] updated inside the index range [lo, hi) only. *)
Definition same_outside (lo hi : Z) (l l' : list T) : Prop :=
  length l' = length l /\
  forall j, 0 <= j -> ~ (lo <= j < hi) -> l' !! Z.to_nat j = l !! Z.to_nat j.

(** The contents of the output buffers at pixel [(n, h, w)] in terms of
    the inputs, [index_meta_data] being the offset of the metadata
    record in use. *)
Definition pixel_post (n h w index_meta_data : Z) (top_data top_points : list T) : Prop :=
  let index_pixel := index_of height width n h w in
  exists depth, read im_depth index_pixel = Ok depth /\
    if fgt depth (of_int 0) then
      exists X1 Y1 Z1 b,
        backproject meta_data index_meta_data h w depth = Ok (X1, Y1, Z1) /\
        point_at top_points index_pixel = Some (X1, Y1, Z1) /\
        search op im_points height width n h w X1 Y1 Z1 = Ok b /\
        if flt (dmin b) (threshold_ op) then
          forall c, 0 <= c < num_channels ->
            exists v,
              read bottom_data_flat
                (index_of height width n (fy b) (fx b) * num_channels + c) = Ok v /\
              read top_data (index_pixel * num_channels + c) = Ok v
        else
          forall c, 0 <= c < num_channels ->
            read top_data (index_pixel * num_channels + c) = Ok (of_int 0)
    else
      point_at top_points index_pixel = Some (NAN, NAN, NAN) /\
      forall c, 0 <= c < num_channels ->
        read top_data (index_pixel * num_channels + c) = Ok (of_int 0).

(** Every pixel whose flat index is below [k] has its final contents,
    batch element [n] using the metadata record at offset
    [n * num_meta_data]. *)
Definition pixels_done (num_meta_data k : Z) (out : list T * list T) : Prop :=
  forall n h w, 0 <= n -> 0 <= h < height -> 0 <= w < width ->
    index_of height width n h w < k ->
    pixel_post n h w (n * num_meta_data) (fst out) (snd out).
End PixelVocabulary.

(** ** The reprojector as the specification words it

    The following definitions follow section 4.1 of the specification:
    the inverse intrinsic matrix is applied to the homogeneous pixel
    coordinate, the ray is scaled by the depth and the live-to-world
    affine pose is applied to the result. *)

Section Reprojector.
Context {T : Type} `{Scalar T}.

Definition vec3 : Type := T * T * T.

(** A row of a matrix; the dot product of a row and a vector. *)
Definition dot3 (r v : vec3) : T :=
  let '(r0, r1, r2) := r in
  let '(v0, v1, v2) := v in
  (r0 * v0 + r1 * v1 + r2 * v2)%S.

(** A 3x3 matrix given by its rows, applied to a vector. *)
Definition mat3_apply (m : vec3 * vec3 * vec3) (v : vec3) : vec3 :=
  let '(m0, m1, m2) := m in (dot3 m0 v, dot3 m1 v, dot3 m2 v).

Definition scale3 (d : T) (v : vec3) : vec3 :=
  let '(v0, v1, v2) := v in (d * v0, d * v1, d * v2)%S.

(** An affine pose: three rows of a rotation, each followed by the
    translation of that row. *)
Definition affine_apply (p : (vec3 * T) * (vec3 * T) * (vec3 * T)) (v : vec3) : vec3 :=
  let '((r0, t0), (r1, t1), (r2, t2)) := p in
  (dot3 r0 v + t0, dot3 r1 v + t1, dot3 r2 v + t2)%S.

(** Three consecutive values of the metadata record. *)
Definition meta_row3 (meta_data : list T) (i : Z) : result vec3 :=
  let* a := read meta_data i in
  let* b := read meta_data (i + 1) in
  let* c := read meta_data (i + 2) in
  Ok (a, b, c).

(** The inverse intrinsic matrix: offsets 9..17 of the record. *)
Definition inverse_intrinsics (meta_data : list T) (record : Z)
    : result (vec3 * vec3 * vec3) :=
  let* r0 := meta_row3 meta_data (record + 9) in
  let* r1 := meta_row3 meta_data (record + 12) in
  let* r2 := meta_row3 meta_data (record + 15) in
  Ok (r0, r1, r2).

(** The live-to-world pose: offsets 30..41 of the record, rows packed
    as 4 values each. *)
Definition pose_live2world (meta_data : list T) (record : Z)
    : result ((vec3 * T) * (vec3 * T) * (vec3 * T)) :=
  let* r0 := meta_row3 meta_data (record + 30) in
  let* t0 := read meta_data (record + 33) in
  let* r1 := meta_row3 meta_data (record + 34) in
  let* t1 := read meta_data (record + 37) in
  let* r2 := meta_row3 meta_data (record + 38) in
  let* t2 := read meta_data (record + 41) in
  Ok ((r0, t0), (r1, t1), (r2, t2)).

Definition spec_reproject (meta_data : list T) (record : Z) (w h : Z) (d : T)
    : result vec3 :=
  let* kinv := inverse_intrinsics meta_data record in
  let* pose := pose_live2world meta_data record in
  Ok (affine_apply pose (scale3 d (mat3_apply kinv (of_int w, of_int h, of_int 1)))).

(** [std::min]. *)
Definition fmin (a b : T) : T := if flt b a then b else a.
End Reprojector.

(** ** The range of [int]

    The kernel computes its loop bounds and flat indices in C++ [int].
    The predicates below say that the values these expressions take stay
    in the range of a 32-bit [int], so that their values in [Z] are the
    values in the source. *)

Definition INT_MAX : Z := 2147483647.

(** For the search of pixel [(h, w)] of batch element [n]: the bounds
    [w - kernel_size_], [w + kernel_size_], [h - kernel_size_],
    [h + kernel_size_] of lines 180 and 182, the loop variables after
    their last increment, and the flat indices [index * 3 + 2] of lines
    186-189. *)
Definition search_in_int_range (kernel_size height width n h w : Z) : Prop :=
  0 <= kernel_size /\ 0 <= n /\ 0 <= h < height /\ 0 <= w < width /\
  w + kernel_size < INT_MAX /\ h + kernel_size < INT_MAX /\
  (n + 1) * (height * width) * 3 <= INT_MAX.

(** For a whole run on shapes [N,H,W,C] and [N,1,1,M]: the sizes, the
    loop bounds of every pixel, the flat indices into the feature tensors
    and the point fields, and [index_meta_data] after the last batch
    element. *)
Definition in_int_range
    (kernel_size batch_size height width num_channels num_meta_data : Z) : Prop :=
  0 <= kernel_size /\
  0 <= batch_size <= INT_MAX /\ 0 <= height <= INT_MAX /\ 0 <= width <= INT_MAX /\
  0 <= num_channels <= INT_MAX /\ 0 <= num_meta_data <= INT_MAX /\
  kernel_size + width <= INT_MAX /\ kernel_size + height <= INT_MAX /\
  batch_size * (height * width) * num_channels <= INT_MAX /\
  batch_size * (height * width) * 3 <= INT_MAX /\
  batch_size * num_meta_data <= INT_MAX.

(** * Concrete inputs at [double] *)

(** A metadata record whose intrinsic matrix, inverse intrinsic matrix and
    two poses are the identity (offsets 0..8, 9..17, 18..29, 30..41),
    followed by the voxel step size and the voxel minimum. *)
Definition camera_identity : list float :=
  map double_of_int
    [1;0;0; 0;1;0; 0;0;1;
     1;0;0; 0;1;0; 0;0;1;
     1;0;0;0; 0;1;0;0; 0;0;1;0;
     1;0;0;0; 0;1;0;0; 0;0;1;0;
     1;1;1; 0;0;0].

Definition tensor_of (sh : list Z) (l : list float) : Tensor float :=
  {| shape := sh; flat := l |}.

(** ** The self-match scenario: a 1x3x3 grid with a hole in the middle *)

Definition self_op : ComputeFlowOp float :=
  {| kernel_size_ := 1; threshold_ := double_of_int 1000 |}.

Definition self_depth : Tensor float :=
  tensor_of [1;3;3;1] (map double_of_int [1;1;1; 1;0;1; 1;1;1]).

Definition self_meta : Tensor float := tensor_of [1;1;1;48] camera_identity.

Definition grid_point (w h : Z) : list float := map double_of_int [w; h; 1].

(** The grid reprojected with the identity camera. *)
Definition self_points : Tensor float :=
  tensor_of [1;3;3;3]
    (concat [grid_point 0 0; grid_point 1 0; grid_point 2 0;
             grid_point 0 1; [PrimFloat.nan; PrimFloat.nan; PrimFloat.nan]; grid_point 2 1;
             grid_point 0 2; grid_point 1 2; grid_point 2 2]).

Definition no_points (sh : list Z) (count : nat) : Tensor float :=
  tensor_of sh (repeat PrimFloat.nan count).

Definition self_data (l : list float) : Tensor float := tensor_of [1;3;3;1] l.

(** ** Two batch elements, no previous-frame point, a threshold above 1000 *)

Definition far_op : ComputeFlowOp float :=
  {| kernel_size_ := 1; threshold_ := double_of_int 2000 |}.

Definition far_data : Tensor float := tensor_of [2;2;1;1] (map double_of_int [5;6;7;8]).
Definition far_points : Tensor float := no_points [2;2;1;3] 12.
Definition far_depth : Tensor float := tensor_of [2;2;1;1] (map double_of_int [0;0;1;1]).
Definition far_meta : Tensor float :=
  tensor_of [2;1;1;48] (camera_identity ++ camera_identity).

(** ** One batch element of one pixel, same operator *)

Definition one_data : Tensor float := tensor_of [1;1;1;1] [double_of_int 5].
Definition one_points : Tensor float := no_points [1;1;1;3] 3.
Definition one_depth : Tensor float := tensor_of [1;1;1;1] [double_of_int 1].
Definition one_meta : Tensor float := tensor_of [1;1;1;48] camera_identity.

(** ** Permuting batch elements *)

(** The flat contents of batch element [i] of a tensor. *)
Definition batch_elem {T : Type} (t : Tensor T) (i : nat) : list T :=
  let size := Z.to_nat (num_elements (tail (shape t))) in
  take size (drop (i * size) (flat t)).

(** The tensor whose batch element [k] is the element [sigma !! k] of [t]. *)
Definition permute_batches {T : Type} (sigma : list nat) (t : Tensor T) : Tensor T :=
  {| shape := shape t; flat := concat (map (batch_elem t) sigma) |}.

(** Three batch elements of 2x1 pixels; only the middle one has depth. *)
Definition perm_data : Tensor float := tensor_of [3;2;1;1] (map double_of_int [1;2;3;4;5;6]).
Definition perm_points : Tensor float := no_points [3;2;1;3] 18.
Definition perm_depth : Tensor float := tensor_of [3;2;1;1] (map double_of_int [0;0;1;1;0;0]).
Definition perm_meta : Tensor float :=
  tensor_of [3;1;1;48] (camera_identity ++ camera_identity ++ camera_identity).

(** ** Closed inputs for the instances of the general statements *)

(** Some contents of freshly allocated memory. *)
Definition junk (k : nat) : float := double_of_int 77.

Definition ten_to_eighteen : Tensor float :=
  self_data (map double_of_int [10; 11; 12; 13; 14; 15; 16; 17; 18]).

Definition ten_to_eighteen_out : Tensor float :=
  self_data (map double_of_int [10; 11; 12; 13; 0; 15; 16; 17; 18]).

(** A 3x3 point field all of whose points coincide: every valid neighbour
    is at the same distance. *)
Definition tie_points : list float :=
  concat (repeat (map double_of_int [5; 5; 5]) 9).

(** ** Inputs for the instances of the further properties *)

(** One pixel whose depth is NaN. *)
Definition nan_depth : Tensor float := tensor_of [1;1;1;1] [PrimFloat.nan].

(** The operator that searches the pixel itself only. *)
Definition zero_op : ComputeFlowOp float :=
  {| kernel_size_ := 0; threshold_ := double_of_int 1000 |}.

(** Two point fields of two batch elements of 2x1 pixels that differ in
    batch element 0 only. *)
Definition points_a : list float :=
  concat [grid_point 0 0; grid_point 0 1; grid_point 5 5; grid_point 6 6].
Definition points_b : list float :=
  concat [grid_point 9 9; grid_point 8 8; grid_point 5 5; grid_point 6 6].

(** Three batch elements of 2x1 pixels with depth, their points being the
    grid reprojected. *)
Definition triple_data : Tensor float :=
  tensor_of [3;2;1;1] (map double_of_int [1;2;3;4;5;6]).
Definition triple_depth : Tensor float :=
  tensor_of [3;2;1;1] (map double_of_int [1;1;2;2;3;3]).
Definition triple_points : Tensor float :=
  tensor_of [3;2;1;3]
    (concat [grid_point 0 0; grid_point 0 1; grid_point 0 0; grid_point 0 1;
             grid_point 0 0; grid_point 0 1]).

(** Another content of freshly allocated memory. *)
Definition junk' (k : nat) : float := double_of_int (Z.of_nat k).

(** The outputs of the kernel on the three batch elements, and on the
    three batch elements in reverse order. *)
Definition triple_top_points : Tensor float :=
  tensor_of [3;2;1;3] (map double_of_int [0;0;1; 0;1;1; 0;0;2; 0;2;2; 0;0;3; 0;3;3]).
Definition reversed_top_data : Tensor float :=
  tensor_of [3;2;1;1] (map double_of_int [5;6;3;4;1;2]).
Definition reversed_top_points : Tensor float :=
  tensor_of [3;2;1;3] (map double_of_int [0;0;3; 0;3;3; 0;0;2; 0;2;2; 0;0;1; 0;1;1]).

(** A 3x3 point field all of whose points are [(1500, 0, 0)]: seen from
    the origin every neighbour is valid and at the distance 1500. *)
Definition far_tie_points : list float :=
  concat (repeat (map double_of_int [1500; 0; 0]) 9).

(** * The accelerator operators

    [ComputeFlowOp<Eigen::GpuDevice, T>::Compute] and
    [ComputeFlowGradOp<Device, T>::Compute] validate their inputs and hand
    the flat buffers to [ComputeFlowForwardLaucher] and
    [ComputeFlowBackwardLaucher].  The two launchers are only declared in
    this file (their bodies are device code); they are parameters here:
    a launcher maps the input buffers, the sizes, the attributes and the
    freshly allocated output buffers to the contents it leaves in the
    output buffers.  Its [bool] result is ignored by the callers and is
    left out. *)

Section Accelerator.
Context {T : Type} `{Scalar T}.

(** [bottom_data bottom_points bottom_depth bottom_meta_data batch_size
    height width channels num_meta_data kernel_size threshold top_data
    top_points] *)
Variable ComputeFlowForwardLaucher :
  list T -> list T -> list T -> list T -> Z -> Z -> Z -> Z -> Z -> Z -> T ->
  list T -> list T -> list T * list T.

(** [top_diff bottom_points top_points batch_size height width channels
    kernel_size threshold bottom_diff] *)
Variable ComputeFlowBackwardLaucher :
  list T -> list T -> list T -> Z -> Z -> Z -> Z -> Z -> T -> list T -> list T.

(** Lines 233-254.  An allocation that fails is outside the model, so the
    early return on [!context->status().ok()] is never taken. *)
Definition ComputingFlowKernel (heap0 heap1 : nat -> T)
    (bottom_data bottom_points bottom_depth bottom_meta_data : Tensor T)
    (batch_size height width channels num_meta_data kernel_size : Z) (threshold : T)
    (tensor_output_shape tensor_output_shape_points : list Z)
    : result (Tensor T * Tensor T) :=
  let top_data := allocate_output heap0 tensor_output_shape in
  let top_points := allocate_output heap1 tensor_output_shape_points in
  let '(top_data_flat, top_points_flat) :=
    ComputeFlowForwardLaucher
      (flat bottom_data) (flat bottom_points) (flat bottom_depth) (flat bottom_meta_data)
      batch_size height width channels num_meta_data kernel_size threshold
      (flat top_data) (flat top_points) in
  Ok ({| shape := tensor_output_shape; flat := top_data_flat |},
      {| shape := tensor_output_shape_points; flat := top_points_flat |}).

(** Lines 276-324. *)
Definition Compute_GPU (op : ComputeFlowOp T) (heap0 heap1 : nat -> T)
    (bottom_data bottom_points bottom_depth bottom_meta_data : Tensor T)
    : result (Tensor T * Tensor T) :=
  let* _ := OP_REQUIRES (dims bottom_data =? 4)
              (InvalidArgument "data must be 4-dimensional") in
  let* _ := OP_REQUIRES (dims bottom_points =? 4)
              (InvalidArgument "label must be 4-dimensional") in
  let* _ := OP_REQUIRES (dims bottom_depth =? 4)
              (InvalidArgument "depth must be 4-dimensional") in
  let* _ := OP_REQUIRES (dims bottom_meta_data =? 4)
              (InvalidArgument "meta data must be 4-dimensional") in
  let batch_size := dim_size bottom_data 0 in
  let height := dim_size bottom_data 1 in
  let width := dim_size bottom_data 2 in
  let num_channels := dim_size bottom_data 3 in
  let num_meta_data := dim_size bottom_meta_data 3 in
  let output_shape := [batch_size; height; width; num_channels] in
  let output_shape_points := [batch_size; height; width; 3] in
  ComputingFlowKernel heap0 heap1 bottom_data bottom_points bottom_depth bottom_meta_data
    batch_size height width num_channels num_meta_data
    (kernel_size_ op) (threshold_ op) output_shape output_shape_points.


End Accelerator.

(** * More vocabulary *)

Section Shapes.
Context {T : Type}.

(** A tensor of the given shape whose buffer has as many elements as the
    shape says. *)
Definition has_shape (t : Tensor T) (sh : list Z) : Prop :=
  shape t = sh /\ Z.of_nat (length (flat t)) = num_elements sh.

(** Two buffers with the same contents in the index range [lo, hi). *)
Definition same_inside (lo hi : Z) (l l' : list T) : Prop :=
  forall i, lo <= i < hi -> read l i = read l' i.
End Shapes.

Section Agreement.
Context {T : Type}.

(** Two pairs of output buffers of the same sizes that agree on the slots
    of all pixels whose flat index is below [k]. *)
Definition agree_below (num_channels k : Z) (o1 o2 : list T * list T) : Prop :=
  length (fst o1) = length (fst o2) /\ length (snd o1) = length (snd o2) /\
  same_inside 0 (k * num_channels) (fst o1) (fst o2) /\
  same_inside 0 (k * 3) (snd o1) (snd o2).
End Agreement.

Section Slices.
Context {T : Type}.

(** Batch element [n] of the buffer [l] and batch element [m] of the
    buffer [l'] hold the same [size] values. *)
Definition slice_eq (size : Z) (l : list T) (n : Z) (l' : list T) (m : Z) : Prop :=
  forall j, 0 <= j < size -> read l (n * size + j) = read l' (m * size + j).
End Slices.
(** * Properties *)

(** ** Fallible computations, buffers and loops *)

Lemma bind_Ok {A B : Type} (c : result A) (k : A -> result B) (b : B) :
  bind c k = Ok b -> exists a, c = Ok a /\ k a = Ok b.
Proof. destruct c as [a|e]; simpl; [eauto | discriminate]. Qed.

Ltac bind_inv H :=
  let a := fresh "a" in
  let Ha := fresh "Ha" in
  apply bind_Ok in H; destruct H as (a & Ha & H).

Section Buffers.
Context {T : Type}.
Implicit Types (buf : list T) (i j : Z) (v : T).

Lemma read_Ok buf i v :
  read buf i = Ok v <-> 0 <= i /\ buf !! Z.to_nat i = Some v.
Proof.
  unfold read. destruct (Z.ltb_spec i 0).
  - split; [discriminate | lia].
  - destruct (buf !! Z.to_nat i) as [u|]; split.
    + intros [= ->]; auto.
    + intros [_ [= ->]]; auto.
    + discriminate.
    + intros [_ [=]].
Qed.

Lemma read_in_range buf i :
  0 <= i < Z.of_nat (length buf) -> exists v, read buf i = Ok v.
Proof.
  intros Hi. destruct (lookup_lt_is_Some_2 buf (Z.to_nat i)) as [v Hv]; [lia|].
  exists v. apply read_Ok. split; [lia | exact Hv].
Qed.

Lemma write_Ok buf i v buf' :
  write buf i v = Ok buf' <->
  0 <= i < Z.of_nat (length buf) /\ buf' = <[Z.to_nat i := v]> buf.
Proof.
  unfold write.
  destruct (Z.leb_spec 0 i), (Z.ltb_spec i (Z.of_nat (length buf))); simpl;
    split; try discriminate; try (intros [? _]; lia).
  - intros [= <-]. auto.
  - intros [_ ->]. reflexivity.
Qed.

Lemma write_length buf i v buf' :
  write buf i v = Ok buf' -> length buf' = length buf.
Proof. intros [_ ->]%write_Ok. apply length_insert. Qed.

Lemma write_same buf i v buf' :
  write buf i v = Ok buf' -> buf' !! Z.to_nat i = Some v.
Proof. intros [Hi ->]%write_Ok. apply list_lookup_insert_eq. lia. Qed.

Lemma write_other buf i v buf' j :
  write buf i v = Ok buf' -> 0 <= j -> j <> i -> buf' !! Z.to_nat j = buf !! Z.to_nat j.
Proof. intros [Hi ->]%write_Ok Hj Hne. apply list_lookup_insert_ne. lia. Qed.
End Buffers.

Section Loops.
Context {St : Type}.
Implicit Types (body : Z -> St -> result St) (P : Z -> St -> Prop).

(** The invariant rule of a counted loop. *)
Lemma for_loop_inv P body count i s s' :
  for_loop count i body s = Ok s' ->
  P i s ->
  (forall j t t', i <= j < i + Z.of_nat count -> P j t -> body j t = Ok t' -> P (j + 1) t') ->
  P (i + Z.of_nat count) s'.
Proof.
  revert i s. induction count as [|k IH]; intros i s Hrun Hinit Hstep.
  - injection Hrun as <-. now replace (i + Z.of_nat 0) with i by lia.
  - simpl in Hrun. bind_inv Hrun.
    replace (i + Z.of_nat (S k)) with ((i + 1) + Z.of_nat k) by lia.
    apply (IH (i + 1) a Hrun).
    + apply (Hstep i s a); [lia | assumption | assumption].
    + intros j t t' Hj. apply Hstep. lia.
Qed.

(** A loop whose body cannot fail under the invariant terminates
    normally. *)
Lemma for_loop_total P body count i s :
  P i s ->
  (forall j t, i <= j < i + Z.of_nat count -> P j t ->
               exists t', body j t = Ok t' /\ P (j + 1) t') ->
  exists s', for_loop count i body s = Ok s' /\ P (i + Z.of_nat count) s'.
Proof.
  revert i s. induction count as [|k IH]; intros i s Hinit Hstep.
  - exists s. split; [reflexivity|]. now replace (i + Z.of_nat 0) with i by lia.
  - destruct (Hstep i s) as (t & Ht & HP); [lia | assumption |].
    destruct (IH (i + 1) t HP) as (s' & Hs' & HP').
    + intros j u Hj. apply Hstep. lia.
    + exists s'. simpl. rewrite Ht. simpl. split; [assumption|].
      now replace (i + Z.of_nat (S k)) with ((i + 1) + Z.of_nat k) by lia.
Qed.

Lemma for_lt_inv P body lo hi s s' :
  for_lt lo hi body s = Ok s' ->
  P lo s ->
  (forall j t t', lo <= j < hi -> P j t -> body j t = Ok t' -> P (j + 1) t') ->
  P (Z.max lo hi) s'.
Proof.
  unfold for_lt. intros Hrun Hinit Hstep.
  replace (Z.max lo hi) with (lo + Z.of_nat (Z.to_nat (hi - lo))) by lia.
  apply (for_loop_inv P body _ _ _ _ Hrun Hinit).
  intros j t t' Hj. apply Hstep. lia.
Qed.

Lemma for_le_inv P body lo hi s s' :
  for_le lo hi body s = Ok s' ->
  P lo s ->
  (forall j t t', lo <= j <= hi -> P j t -> body j t = Ok t' -> P (j + 1) t') ->
  P (Z.max lo (hi + 1)) s'.
Proof.
  unfold for_le. intros Hrun Hinit Hstep.
  replace (Z.max lo (hi + 1)) with (lo + Z.of_nat (Z.to_nat (hi + 1 - lo))) by lia.
  apply (for_loop_inv P body _ _ _ _ Hrun Hinit).
  intros j t t' Hj. apply Hstep. lia.
Qed.

Lemma for_lt_total P body lo hi s :
  P lo s ->
  (forall j t, lo <= j < hi -> P j t -> exists t', body j t = Ok t' /\ P (j + 1) t') ->
  exists s', for_lt lo hi body s = Ok s' /\ P (Z.max lo hi) s'.
Proof.
  unfold for_lt. intros Hinit Hstep.
  replace (Z.max lo hi) with (lo + Z.of_nat (Z.to_nat (hi - lo))) by lia.
  apply for_loop_total; [assumption|].
  intros j t Hj. apply Hstep. lia.
Qed.

Lemma for_le_total P body lo hi s :
  P lo s ->
  (forall j t, lo <= j <= hi -> P j t -> exists t', body j t = Ok t' /\ P (j + 1) t') ->
  exists s', for_le lo hi body s = Ok s' /\ P (Z.max lo (hi + 1)) s'.
Proof.
  unfold for_le. intros Hinit Hstep.
  replace (Z.max lo (hi + 1)) with (lo + Z.of_nat (Z.to_nat (hi + 1 - lo))) by lia.
  apply for_loop_total; [assumption|].
  intros j t Hj. apply Hstep. lia.
Qed.
End Loops.

(** ** The laws of [double] *)

Lemma SFcompare_key f1 f2 :
  SFcompare f1 f2 =
  if sf_is_nan f1 || sf_is_nan f2 then None
  else Some (lex3 (sf_key f1) (sf_key f2)).
Proof.
  destruct f1 as [s1|s1| |s1 m1 e1], f2 as [s2|s2| |s2 m2 e2]; simpl;
    try reflexivity; try (destruct s1; reflexivity); try (destruct s2; reflexivity);
    try (destruct s1, s2; reflexivity).
  destruct s1, s2; simpl; try reflexivity.
  rewrite Z.compare_opp, (Z.compare_antisym e1 e2).
  destruct (e1 ?= e2); reflexivity.
Qed.

Lemma lex3_refl a : lex3 a a = Eq.
Proof. destruct a as [[a1 a2] a3]. unfold lex3. now rewrite !Z.compare_refl. Qed.

Lemma lex3_antisym a b : lex3 b a = CompOpp (lex3 a b).
Proof.
  destruct a as [[a1 a2] a3], b as [[b1 b2] b3]; unfold lex3.
  rewrite (Z.compare_antisym a1 b1), (Z.compare_antisym a2 b2), (Z.compare_antisym a3 b3).
  destruct (a1 ?= b1), (a2 ?= b2); reflexivity.
Qed.

Lemma lex3_lt_trans a b c : lex3 a b = Lt -> lex3 b c = Lt -> lex3 a c = Lt.
Proof.
  destruct a as [[a1 a2] a3], b as [[b1 b2] b3], c as [[c1 c2] c3]; unfold lex3.
  destruct (Z.compare_spec a1 b1), (Z.compare_spec b1 c1), (Z.compare_spec a1 c1);
    try discriminate; try lia;
  destruct (Z.compare_spec a2 b2), (Z.compare_spec b2 c2), (Z.compare_spec a2 c2);
    try discriminate; try lia; try reflexivity;
  rewrite ?Z.compare_lt_iff; lia.
Qed.

Lemma lex3_le_lt_trans a b c : lex3 a b <> Gt -> lex3 b c = Lt -> lex3 a c = Lt.
Proof.
  destruct a as [[a1 a2] a3], b as [[b1 b2] b3], c as [[c1 c2] c3]; unfold lex3.
  destruct (Z.compare_spec a1 b1), (Z.compare_spec b1 c1), (Z.compare_spec a1 c1);
    try congruence; try lia;
  destruct (Z.compare_spec a2 b2), (Z.compare_spec b2 c2), (Z.compare_spec a2 c2);
    try congruence; try lia;
  rewrite ?Z.compare_lt_iff; intros Hng; try lia.
  all: destruct (Z.compare_spec a3 b3); try congruence; lia.
Qed.

Lemma double_is_nan x : PrimFloat.is_nan x = sf_is_nan (Prim2SF x).
Proof.
  unfold PrimFloat.is_nan. rewrite FloatAxioms.eqb_spec. unfold SFeqb.
  rewrite SFcompare_key, orb_diag.
  destruct (sf_is_nan (Prim2SF x)); [reflexivity|]. now rewrite lex3_refl.
Qed.

Lemma double_ltb_trans x y z :
  PrimFloat.ltb x y = true -> PrimFloat.ltb y z = true -> PrimFloat.ltb x z = true.
Proof.
  rewrite !FloatAxioms.ltb_spec. unfold SFltb. rewrite !SFcompare_key.
  destruct (sf_is_nan (Prim2SF x)), (sf_is_nan (Prim2SF y)), (sf_is_nan (Prim2SF z));
    simpl; try discriminate.
  destruct (lex3 (sf_key (Prim2SF x)) (sf_key (Prim2SF y))) eqn:E1; try discriminate.
  destruct (lex3 (sf_key (Prim2SF y)) (sf_key (Prim2SF z))) eqn:E2; try discriminate.
  now rewrite (lex3_lt_trans _ _ _ E1 E2).
Qed.

Lemma double_leb_ltb_trans x y z :
  PrimFloat.leb x y = true -> PrimFloat.ltb y z = true -> PrimFloat.ltb x z = true.
Proof.
  rewrite !FloatAxioms.ltb_spec, FloatAxioms.leb_spec. unfold SFltb, SFleb. rewrite !SFcompare_key.
  destruct (sf_is_nan (Prim2SF x)), (sf_is_nan (Prim2SF y)), (sf_is_nan (Prim2SF z));
    simpl; try discriminate.
  destruct (lex3 (sf_key (Prim2SF y)) (sf_key (Prim2SF z))) eqn:E2; try discriminate.
  destruct (lex3 (sf_key (Prim2SF x)) (sf_key (Prim2SF y))) eqn:E1;
    try discriminate; intros _ _.
  all: rewrite (lex3_le_lt_trans (sf_key (Prim2SF x)) (sf_key (Prim2SF y))
                  (sf_key (Prim2SF z))); congruence.
Qed.

Lemma double_ltb_leb x y : PrimFloat.ltb x y = true -> PrimFloat.leb x y = true.
Proof.
  rewrite FloatAxioms.ltb_spec, FloatAxioms.leb_spec. unfold SFltb, SFleb.
  destruct (SFcompare (Prim2SF x) (Prim2SF y)) as [[]|]; congruence.
Qed.

Lemma double_ltb_not_leb x y : PrimFloat.ltb x y = true -> PrimFloat.leb y x = false.
Proof.
  rewrite FloatAxioms.ltb_spec, FloatAxioms.leb_spec. unfold SFltb, SFleb. rewrite !SFcompare_key, orb_comm.
  destruct (sf_is_nan (Prim2SF y) || sf_is_nan (Prim2SF x)); try discriminate.
  rewrite (lex3_antisym (sf_key (Prim2SF x)) (sf_key (Prim2SF y))).
  destruct (lex3 (sf_key (Prim2SF x)) (sf_key (Prim2SF y))); simpl; congruence.
Qed.

Lemma double_ltb_not_nan x y :
  PrimFloat.ltb x y = true -> PrimFloat.is_nan x = false /\ PrimFloat.is_nan y = false.
Proof.
  rewrite FloatAxioms.ltb_spec, !double_is_nan. unfold SFltb. rewrite SFcompare_key.
  destruct (sf_is_nan (Prim2SF x)), (sf_is_nan (Prim2SF y)); simpl; try discriminate.
  auto.
Qed.

Lemma double_leb_total x y :
  PrimFloat.is_nan x = false -> PrimFloat.is_nan y = false ->
  PrimFloat.ltb x y = false -> PrimFloat.leb y x = true.
Proof.
  rewrite FloatAxioms.ltb_spec, FloatAxioms.leb_spec, !double_is_nan. unfold SFltb, SFleb.
  rewrite !SFcompare_key. intros -> ->. simpl.
  rewrite (lex3_antisym (sf_key (Prim2SF x)) (sf_key (Prim2SF y))).
  destruct (lex3 (sf_key (Prim2SF x)) (sf_key (Prim2SF y))); simpl; congruence.
Qed.

(** Multiplication by [1.0] is exact. *)

Lemma digits2_xO p : Z.pos (digits2_pos p~0) = Z.pos (digits2_pos p) + 1.
Proof. cbn [digits2_pos]. lia. Qed.

Lemma shr_1_xO p :
  shr_1 {| shr_m := Z.pos p~0; shr_r := false; shr_s := false |} =
  {| shr_m := Z.pos p; shr_r := false; shr_s := false |}.
Proof. reflexivity. Qed.

Lemma mul_2_52 m :
  (m * 4503599627370496)%positive =
  (m~0~0~0~0~0~0~0~0~0~0~0~0~0~0~0~0~0~0~0~0~0~0~0~0~0~0
    ~0~0~0~0~0~0~0~0~0~0~0~0~0~0~0~0~0~0~0~0~0~0~0~0~0~0)%positive.
Proof. rewrite Pos.mul_comm. reflexivity. Qed.

Lemma SF64mul_one_r x :
  valid_binary x = true ->
  SF64mul x (S754_finite false 4503599627370496 (-52)) = x.
Proof.
  intros Hv. destruct x as [s|s| |s m e]; [destruct s; reflexivity..| reflexivity |].
  unfold valid_binary, bounded, canonical_mantissa in Hv.
  apply andb_prop in Hv. destruct Hv as [Hc Hb].
  apply Z.eqb_eq in Hc.
  unfold SF64mul, SFmul. rewrite xorb_false_r, mul_2_52.
  unfold binary_round_aux, shr_fexp, Zdigits2.
  rewrite !digits2_xO.
  match goal with
  | |- context [fexp _ _ (?d + (e + -52))] =>
      replace (d + (e + -52)) with (Z.pos (digits2_pos m) + e) by lia
  end.
  rewrite Hc.
  replace (e - (e + -52)) with 52 by lia.
  unfold shr, shr_record_of_loc. cbn [SpecFloat.iter_pos]. rewrite !shr_1_xO.
  cbn [shr_m loc_of_shr_record round_nearest_even].
  replace (e + -52 + 52) with e by lia.
  rewrite Hc, Z.sub_diag, Hb. reflexivity.
Qed.

Lemma double_mul_one_r (x : float) : PrimFloat.mul x 1%float = x.
Proof.
  apply Prim2SF_inj. rewrite FloatAxioms.mul_spec.
  change (Prim2SF 1) with (S754_finite false 4503599627370496 (-52)).
  apply SF64mul_one_r, Prim2SF_valid.
Qed.

#[export] Instance double_ScalarLaws : ScalarLaws float.
Proof.
  constructor.
  - reflexivity.
  - exact double_ltb_trans.
  - exact double_leb_ltb_trans.
  - exact double_ltb_leb.
  - exact double_ltb_not_leb.
  - exact double_ltb_not_nan.
  - exact double_leb_total.
  - exact double_mul_one_r.
Qed.

(** ** The neighbourhood search *)

Section SearchProofs.
Context {T : Type} `{ScalarLaws T}.
Variable op : ComputeFlowOp T.
Variables (im_points : list T) (height width : Z).
Variables (n h w : Z) (X1 Y1 Z1 : T).

Abbreviation k := (kernel_size_ op).
Abbreviation cand := (candidate im_points height width n X1 Y1 Z1).
Abbreviation step := (neighbor im_points height width n X1 Y1 Z1).
Abbreviation inv := (search_inv im_points height width k n h w X1 Y1 Z1).

(** One visit either skips the pixel or compares its distance with the
    running minimum. *)
Lemma neighbor_Ok x y b b' :
  step x y b = Ok b' ->
  b' = match cand x y with
       | Some dis =>
           if flt dis (dmin b) then {| dmin := dis; fx := x; fy := y |} else b
       | None => b
       end.
Proof.
  unfold neighbor, candidate, point_at, index_of, undefined_point.
  destruct ((x >=? 0) && (x <? width) && (y >=? 0) && (y <? height));
    [|congruence].
  intros Hrun. bind_inv Hrun. bind_inv Hrun. bind_inv Hrun.
  rewrite Ha, Ha0, Ha1.
  destruct (fisnan a || fisnan a0 || fisnan a1); [congruence|].
  destruct (flt _ (dmin b)); congruence.
Qed.

Lemma neighbor_inv x0 y0 b b' :
  in_window k h w x0 y0 -> inv x0 y0 b -> step x0 y0 b = Ok b' ->
  inv x0 (y0 + 1) b'.
Proof.
  intros Hwin Hinv Hrun. apply neighbor_Ok in Hrun.
  assert (Hsplit : forall x y, scanned_before x y x0 (y0 + 1) ->
            scanned_before x y x0 y0 \/ (x = x0 /\ y = y0))
    by (unfold scanned_before; lia).
  destruct (cand x0 y0) as [dis0|] eqn:Hc.
  - destruct (flt dis0 (dmin b)) eqn:Hlt; subst b'.
    + (* the running minimum is replaced *)
      right. simpl. split; [assumption|]. split; [unfold scanned_before; lia|].
      split; [assumption|].
      assert (H1000 : flt dis0 (of_int 1000) = true).
      { destruct Hinv as [[-> _] | (_ & _ & _ & Hd & _)]; [exact Hlt|].
        exact (flt_trans _ _ _ Hlt Hd). }
      split; [assumption|].
      intros x y dis Hw Hbefore Hcand.
      split; [|unfold scanned_before in *; lia].
      intros Hb.
      destruct (fle dis dis0) eqn:Hle; [|reflexivity].
      pose proof (fle_flt_trans _ _ _ Hle Hlt) as Hcontra.
      destruct Hinv as [[-> Hall] | (Hfw & Hfb & Hfc & Hd & Hall)].
      * simpl in Hcontra.
        rewrite (Hall x y dis Hw Hb Hcand) in Hcontra. discriminate.
      * destruct (Hall x y dis Hw Hb Hcand) as [Hearlier Hlater].
        assert (Hcases : scanned_before x y (fx b) (fy b) \/
                         (x = fx b /\ y = fy b) \/
                         scanned_before (fx b) (fy b) x y)
          by (unfold scanned_before; lia).
        destruct Hcases as [Hc1 | [[-> ->] | Hc3]].
        -- rewrite (flt_fle _ _ Hcontra) in Hearlier. now specialize (Hearlier Hc1).
        -- rewrite Hfc in Hcand. injection Hcand as <-.
           rewrite (flt_not_fle _ _ Hlt) in Hle. discriminate.
        -- rewrite (Hlater Hc3) in Hcontra. discriminate.
    + (* the pixel is valid but not closer *)
      destruct Hinv as [[-> Hall] | (Hfw & Hfb & Hfc & Hd & Hall)].
      * left. split; [reflexivity|].
        intros x y dis Hw Hbefore Hcand.
        destruct (Hsplit x y Hbefore) as [Hb | [-> ->]]; [eauto|].
        rewrite Hc in Hcand. injection Hcand as <-. exact Hlt.
      * right. split; [assumption|].
        split; [unfold scanned_before in *; lia|].
        split; [assumption|]. split; [assumption|].
        intros x y dis Hw Hbefore Hcand.
        destruct (Hsplit x y Hbefore) as [Hb | [-> ->]]; [eauto|].
        rewrite Hc in Hcand. injection Hcand as <-.
        split; [unfold scanned_before in *; lia | intros _; exact Hlt].
  - (* the pixel is skipped *)
    subst b'.
    destruct Hinv as [[-> Hall] | (Hfw & Hfb & Hfc & Hd & Hall)].
    + left. split; [reflexivity|].
      intros x y dis Hw Hbefore Hcand.
      destruct (Hsplit x y Hbefore) as [Hb | [-> ->]]; [eauto | congruence].
    + right. split; [assumption|].
      split; [unfold scanned_before in *; lia|].
      split; [assumption|]. split; [assumption|].
      intros x y dis Hw Hbefore Hcand.
      destruct (Hsplit x y Hbefore) as [Hb | [-> ->]]; [eauto | congruence].
Qed.

(** Moving the position of the scan between two positions that have the
    same pixels of the window before them. *)
Lemma search_inv_move x0 y0 x1 y1 b :
  (forall x y, in_window k h w x y ->
               scanned_before x y x0 y0 <-> scanned_before x y x1 y1) ->
  inv x0 y0 b -> inv x1 y1 b.
Proof.
  intros Hsame [[-> Hall] | (Hfw & Hfb & Hfc & Hd & Hall)].
  - left. split; [reflexivity|].
    intros x y dis Hw Hb. apply Hall; [assumption|]. now apply Hsame.
  - right. split; [assumption|]. split; [now apply Hsame|].
    split; [assumption|]. split; [assumption|].
    intros x y dis Hw Hb. apply Hall; [assumption|]. now apply Hsame.
Qed.

Lemma column_inv x0 b b' :
  w - k <= x0 <= w + k -> inv x0 (h - k) b ->
  for_le (h - k) (h + k) (fun y b => step x0 y b) b = Ok b' ->
  inv (x0 + 1) (h - k) b'.
Proof.
  intros Hx Hinv Hrun.
  apply (for_le_inv (fun y b => inv x0 y b)) in Hrun; [|assumption|].
  - revert Hrun. apply search_inv_move.
    intros x y [Hwx Hwy]. unfold scanned_before. lia.
  - intros y t t' Hy Hinv' Hstep. apply (neighbor_inv x0 y t t'); auto.
    split; lia.
Qed.

(** The search establishes [search_post]. *)
Lemma search_Ok b :
  search op im_points height width n h w X1 Y1 Z1 = Ok b ->
  search_post im_points height width k n h w X1 Y1 Z1 b.
Proof.
  unfold search. intros Hrun.
  apply (for_le_inv (fun x b => inv x (h - k) b)) in Hrun.
  - destruct Hrun as [[-> Hall] | (Hfw & Hfb & Hfc & Hd & Hall)].
    + left. split; [reflexivity|].
      intros x y dis Hw. apply Hall; [assumption|].
      destruct Hw. unfold scanned_before. lia.
    + right. split; [assumption|]. split; [assumption|]. split; [assumption|].
      intros x y dis Hw. apply Hall; [assumption|].
      destruct Hw. unfold scanned_before. lia.
  - left. split; [reflexivity|].
    intros x y dis [Hwx Hwy] Hb. unfold scanned_before in Hb. lia.
  - intros x t t' Hx Hinv Hstep. apply (column_inv x t t'); auto.
Qed.
End SearchProofs.

(** ** Flat indices *)

Section Indices.
Variables height width : Z.

Lemma index_of_bounds n y x :
  0 <= y < height -> 0 <= x < width ->
  n * (height * width) <= index_of height width n y x < (n + 1) * (height * width).
Proof. unfold index_of. intros Hy Hx. nia. Qed.

Lemma index_of_nonneg n y x :
  0 <= n -> 0 <= y < height -> 0 <= x < width -> 0 <= index_of height width n y x.
Proof. intros Hn Hy Hx. pose proof (index_of_bounds n y x Hy Hx). nia. Qed.

Lemma index_of_inj n y x n' y' x' :
  0 <= y < height -> 0 <= x < width -> 0 <= y' < height -> 0 <= x' < width ->
  index_of height width n y x = index_of height width n' y' x' ->
  n = n' /\ y = y' /\ x = x'.
Proof.
  intros Hy Hx Hy' Hx' Heq.
  pose proof (index_of_bounds n y x Hy Hx) as B.
  pose proof (index_of_bounds n' y' x' Hy' Hx') as B'.
  assert (n = n') as <- by nia.
  unfold index_of in Heq.
  assert (y = y') as <- by nia.
  repeat split; lia.
Qed.
End Indices.

(** ** Writing into the output buffers *)

Section Writes.
Context {T : Type}.
Implicit Types (l : list T).

Lemma same_outside_refl lo hi l : same_outside lo hi l l.
Proof. split; auto. Qed.

Lemma same_outside_trans lo hi l1 l2 l3 :
  same_outside lo hi l1 l2 -> same_outside lo hi l2 l3 -> same_outside lo hi l1 l3.
Proof.
  intros [L1 F1] [L2 F2]. split; [congruence|].
  intros j Hj Hout. rewrite F2, F1; auto.
Qed.

Lemma same_outside_weaken lo hi lo' hi' l l' :
  lo' <= lo -> hi <= hi' -> same_outside lo hi l l' -> same_outside lo' hi' l l'.
Proof. intros Hlo Hhi [L F]. split; [assumption|]. intros j Hj Hout. apply F; lia. Qed.

Lemma write_same_outside l i v l' :
  write l i v = Ok l' -> same_outside i (i + 1) l l'.
Proof.
  intros Hw. split; [exact (write_length _ _ _ _ Hw)|].
  intros j Hj Hout. apply (write_other _ _ _ _ _ Hw); lia.
Qed.

Lemma read_same_outside lo hi l l' j :
  same_outside lo hi l l' -> ~ (lo <= j < hi) -> read l' j = read l j.
Proof.
  intros [_ F] Hout. unfold read. destruct (Z.ltb_spec j 0); [reflexivity|].
  rewrite F; auto.
Qed.

Lemma point_at_same_outside lo hi l l' index :
  same_outside lo hi l l' -> ~ (lo <= index * 3 + 0 < hi) ->
  ~ (lo <= index * 3 + 1 < hi) -> ~ (lo <= index * 3 + 2 < hi) ->
  point_at l' index = point_at l index.
Proof.
  intros Hs H0 H1 H2. unfold point_at.
  now rewrite !(read_same_outside lo hi l l') by assumption.
Qed.

Lemma read_write_same l i v l' : write l i v = Ok l' -> read l' i = Ok v.
Proof.
  intros Hw. apply read_Ok. split; [apply write_Ok in Hw; lia|].
  exact (write_same _ _ _ _ Hw).
Qed.

(** The three stores of a point (lines 149-151 and 172-174). *)
Lemma write_point l index a b c l1 l2 l3 :
  write l (index * 3 + 0) a = Ok l1 ->
  write l1 (index * 3 + 1) b = Ok l2 ->
  write l2 (index * 3 + 2) c = Ok l3 ->
  same_outside (index * 3) (index * 3 + 3) l l3 /\ point_at l3 index = Some (a, b, c).
Proof.
  intros W1 W2 W3.
  pose proof (write_same_outside _ _ _ _ W1) as S1.
  pose proof (write_same_outside _ _ _ _ W2) as S2.
  pose proof (write_same_outside _ _ _ _ W3) as S3.
  split.
  - apply (same_outside_trans _ _ l l2).
    + apply (same_outside_trans _ _ l l1);
        [revert S1 | revert S2]; apply same_outside_weaken; lia.
    + revert S3. apply same_outside_weaken; lia.
  - unfold point_at.
    rewrite (read_write_same _ _ _ _ W3).
    rewrite (read_same_outside _ _ _ _ (index * 3 + 1) S3) by lia.
    rewrite (read_write_same _ _ _ _ W2).
    rewrite (read_same_outside _ _ _ _ (index * 3 + 0) S3) by lia.
    rewrite (read_same_outside _ _ _ _ (index * 3 + 0) S2) by lia.
    rewrite (read_write_same _ _ _ _ W1). reflexivity.
Qed.

(** A loop that stores, for each [c], the value [f c] at [base + c]
    (lines 147-148 and 209-210). *)
Lemma write_loop (f : Z -> result T) base count i l l' :
  for_loop count i (fun c td => let* v := f c in write td (base + c) v) l = Ok l' ->
  same_outside (base + i) (base + i + Z.of_nat count) l l' /\
  forall c, i <= c < i + Z.of_nat count ->
    exists v, f c = Ok v /\ read l' (base + c) = Ok v.
Proof.
  revert i l. induction count as [|m IH]; intros i l Hrun.
  - injection Hrun as <-. split; [apply same_outside_refl | lia].
  - simpl in Hrun. bind_inv Hrun. rename a into l1. bind_inv Ha. rename a into v.
    destruct (IH _ _ Hrun) as [Hs Hv].
    pose proof (write_same_outside _ _ _ _ Ha) as S1.
    split.
    + apply (same_outside_trans _ _ l l1);
        [revert S1 | revert Hs]; apply same_outside_weaken; lia.
    + intros c Hc. destruct (Z.eq_dec c i) as [-> | Hne].
      * exists v. split; [assumption|].
        rewrite (read_same_outside _ _ _ _ _ Hs) by lia.
        exact (read_write_same _ _ _ _ Ha).
      * apply Hv. lia.
Qed.
End Writes.

(** ** The body of the pixel loops *)

Section PixelProofs.
Context {T : Type} `{Scalar T}.
Variable op : ComputeFlowOp T.
Variables bottom_data_flat im_points im_depth meta_data : list T.
Variables height width num_channels : Z.

Abbreviation pixel' :=
  (pixel op bottom_data_flat im_points im_depth meta_data height width num_channels).
Abbreviation post :=
  (pixel_post op bottom_data_flat im_points im_depth meta_data height width num_channels).
Abbreviation all_done :=
  (pixels_done op bottom_data_flat im_points im_depth meta_data height width num_channels).
Abbreviation index_pixel := (index_of height width).

(** One iteration touches the slots of its own pixel only and leaves
    them as [pixel_post] says. *)
Lemma pixel_Ok n h w index_meta_data td tp td' tp' :
  pixel' n h w index_meta_data (td, tp) = Ok (td', tp') ->
  same_outside (index_pixel n h w * num_channels)
               (index_pixel n h w * num_channels + Z.max 0 num_channels) td td' /\
  same_outside (index_pixel n h w * 3) (index_pixel n h w * 3 + 3) tp tp' /\
  post n h w index_meta_data td' tp'.
Proof.
  unfold pixel, pixel_post. fold (index_pixel n h w).
  set (p := index_pixel n h w). intros Hrun.
  bind_inv Hrun. rename a into td1, Ha into Hinit.
  bind_inv Hrun. rename a into tp1, Ha into W1.
  bind_inv Hrun. rename a into tp2, Ha into W2.
  bind_inv Hrun. rename a into tp3, Ha into W3.
  bind_inv Hrun. rename a into depth, Ha into Hdepth.
  apply (write_loop (fun _ => Ok (of_int 0))) in Hinit.
  destruct Hinit as [Sinit Vinit].
  replace (p * num_channels + 0 + Z.of_nat (Z.to_nat (num_channels - 0)))
    with (p * num_channels + Z.max 0 num_channels) in Sinit by lia.
  replace (p * num_channels + 0) with (p * num_channels) in Sinit by lia.
  assert (Zeros : forall c, 0 <= c < num_channels ->
            read td1 (p * num_channels + c) = Ok (of_int 0)).
  { intros c Hc. destruct (Vinit c) as (v & [= <-] & Hv); [lia | exact Hv]. }
  destruct (write_point _ _ _ _ _ _ _ _ W1 W2 W3) as [Snan Vnan].
  destruct (fgt depth (of_int 0)) eqn:Hgt.
  - bind_inv Hrun. destruct a as [[X1 Y1] Z1]. rename Ha into Hback.
    bind_inv Hrun. rename a into tp4, Ha into W4.
    bind_inv Hrun. rename a into tp5, Ha into W5.
    bind_inv Hrun. rename a into tp6, Ha into W6.
    bind_inv Hrun. rename a into b, Ha into Hsearch.
    destruct (write_point _ _ _ _ _ _ _ _ W4 W5 W6) as [Spt Vpt].
    assert (Stp : same_outside (p * 3) (p * 3 + 3) tp tp6)
      by (eapply same_outside_trans; eassumption).
    destruct (flt (dmin b) (threshold_ op)) eqn:Hthr.
    + bind_inv Hrun. rename a into td2, Ha into Hcopy.
      injection Hrun as <- <-.
      apply (write_loop
               (fun c => read bottom_data_flat
                           ((n * height * width + fy b * width + fx b) * num_channels + c)))
        in Hcopy.
      destruct Hcopy as [Scopy Vcopy].
      replace (p * num_channels + 0 + Z.of_nat (Z.to_nat (num_channels - 0)))
        with (p * num_channels + Z.max 0 num_channels) in Scopy by lia.
      replace (p * num_channels + 0) with (p * num_channels) in Scopy by lia.
      split; [eapply same_outside_trans; eassumption|]. split; [assumption|].
      exists depth. split; [assumption|]. rewrite Hgt.
      exists X1, Y1, Z1, b. repeat (split; [assumption|]). rewrite Hthr.
      intros c Hc. apply Vcopy. lia.
    + injection Hrun as <- <-.
      split; [assumption|]. split; [assumption|].
      exists depth. split; [assumption|]. rewrite Hgt.
      exists X1, Y1, Z1, b. repeat (split; [assumption|]). rewrite Hthr.
      exact Zeros.
  - injection Hrun as <- <-.
    split; [assumption|]. split; [assumption|].
    exists depth. split; [assumption|]. rewrite Hgt. auto.
Qed.

(** The contents of a pixel survive the iterations of the other pixels. *)
Lemma pixel_post_frame n h w index_meta_data td tp td' tp' q :
  index_pixel n h w <> q ->
  same_outside (q * num_channels) (q * num_channels + Z.max 0 num_channels) td td' ->
  same_outside (q * 3) (q * 3 + 3) tp tp' ->
  post n h w index_meta_data td tp -> post n h w index_meta_data td' tp'.
Proof.
  unfold pixel_post. set (p := index_pixel n h w). intros Hne Std Stp.
  assert (Rd : forall c, 0 <= c < num_channels ->
            read td' (p * num_channels + c) = read td (p * num_channels + c)).
  { intros c Hc. apply (read_same_outside _ _ _ _ _ Std). nia. }
  assert (Rp : point_at tp' p = point_at tp p).
  { apply (point_at_same_outside _ _ _ _ _ Stp); lia. }
  intros (depth & Hdepth & Hpost). exists depth. split; [assumption|].
  destruct (fgt depth (of_int 0)).
  - destruct Hpost as (X1 & Y1 & Z1 & b & Hback & Hpt & Hsearch & Hdata).
    exists X1, Y1, Z1, b. rewrite Rp. repeat (split; [assumption|]).
    destruct (flt (dmin b) (threshold_ op)).
    + intros c Hc. destruct (Hdata c Hc) as (v & Hv & Hr).
      exists v. rewrite Rd; auto.
    + intros c Hc. rewrite Rd; auto.
  - destruct Hpost as [Hpt Hdata]. rewrite Rp. split; [assumption|].
    intros c Hc. rewrite Rd; auto.
Qed.

(** ** The three pixel loops *)

Hypothesis Hheight : 0 <= height.
Hypothesis Hwidth : 0 <= width.

Lemma pixel_done num_meta_data n h w out out' :
  0 <= n -> 0 <= h < height -> 0 <= w < width ->
  all_done num_meta_data (index_pixel n h w) out ->
  pixel' n h w (n * num_meta_data) out = Ok out' ->
  all_done num_meta_data (index_pixel n h w + 1) out'.
Proof.
  intros Hn Hh Hw Hdone Hrun. destruct out as [td tp], out' as [td' tp'].
  destruct (pixel_Ok _ _ _ _ _ _ _ _ Hrun) as (Std & Stp & Hpost).
  intros n' h' w' Hn' Hh' Hw' Hlt. simpl.
  destruct (Z.eq_dec (index_pixel n' h' w') (index_pixel n h w)) as [Heq | Hne].
  - apply index_of_inj in Heq; try assumption.
    destruct Heq as (-> & -> & ->). exact Hpost.
  - apply (pixel_post_frame _ _ _ _ td tp td' tp' _ Hne Std Stp).
    apply (Hdone n' h' w'); try assumption. lia.
Qed.

Lemma row_done num_meta_data n h out out' :
  0 <= n -> 0 <= h < height ->
  all_done num_meta_data (index_pixel n h 0) out ->
  for_lt 0 width (fun w out => pixel' n h w (n * num_meta_data) out) out = Ok out' ->
  all_done num_meta_data (index_pixel n (h + 1) 0) out'.
Proof.
  intros Hn Hh Hdone Hrun.
  apply (for_lt_inv (fun w out => all_done num_meta_data (index_pixel n h w) out))
    in Hrun; [|assumption|].
  - replace (index_pixel n (h + 1) 0) with (index_pixel n h (Z.max 0 width));
      [assumption|].
    unfold index_of. rewrite Z.max_r by assumption. ring.
  - intros w t t' Hw Hinv Hstep.
    replace (index_pixel n h (w + 1)) with (index_pixel n h w + 1)
      by (unfold index_of; ring).
    apply (pixel_done num_meta_data n h w t t'); assumption.
Qed.

Lemma batch_done num_meta_data n out index_meta_data out' index_meta_data' :
  0 <= n -> index_meta_data = n * num_meta_data ->
  all_done num_meta_data (index_pixel n 0 0) out ->
  batch op bottom_data_flat im_points im_depth meta_data height width num_channels
    num_meta_data n (out, index_meta_data) = Ok (out', index_meta_data') ->
  index_meta_data' = (n + 1) * num_meta_data /\
  all_done num_meta_data (index_pixel (n + 1) 0 0) out'.
Proof.
  intros Hn -> Hdone Hrun. unfold batch in Hrun.
  bind_inv Hrun. injection Hrun as <- <-. split; [ring|].
  apply (for_lt_inv (fun h out => all_done num_meta_data (index_pixel n h 0) out))
    in Ha; [|assumption|].
  - replace (index_pixel (n + 1) 0 0) with (index_pixel n (Z.max 0 height) 0);
      [assumption|].
    unfold index_of. rewrite Z.max_r by assumption. ring.
  - intros h t t' Hh Hinv Hstep.
    apply (row_done num_meta_data n h t t'); assumption.
Qed.

(** After the loops every pixel holds what its own iteration computed,
    and batch element [n] has used the metadata record at offset
    [n * num_meta_data]. *)
Lemma pixel_loops_Ok batch_size num_meta_data out out' :
  pixel_loops op bottom_data_flat im_points im_depth meta_data height width
    num_channels batch_size num_meta_data out = Ok out' ->
  forall n h w, 0 <= n < batch_size -> 0 <= h < height -> 0 <= w < width ->
    post n h w (n * num_meta_data) (fst out') (snd out').
Proof.
  unfold pixel_loops. intros Hrun n h w Hn Hh Hw.
  bind_inv Hrun. destruct a as [out1 imd]. injection Hrun as <-.
  apply (for_lt_inv
           (fun n s => snd s = n * num_meta_data /\
                       all_done num_meta_data (index_pixel n 0 0) (fst s)))
    in Ha.
  - destruct Ha as [_ Hdone]. simpl in Hdone.
    apply Hdone; try assumption; try lia.
    pose proof (index_of_bounds height width n h w Hh Hw).
    unfold index_of at 2. rewrite Z.max_r by lia. nia.
  - simpl. split; [ring|].
    intros n' h' w' Hn' Hh' Hw' Hlt.
    pose proof (index_of_nonneg height width n' h' w' Hn' Hh' Hw').
    unfold index_of in Hlt at 2. lia.
  - intros j [t imd0] [t' imd'] Hj [Himd Hdone] Hstep. simpl in *.
    apply (batch_done num_meta_data j t imd0 t' imd'); try assumption. lia.
Qed.
End PixelProofs.

(** ** The kernel as a whole *)

Section ComputeProofs.
Context {T : Type} `{Scalar T}.

(** A successful run leaves every pixel as [pixel_post] says, batch
    element [n] using the metadata record at [n * num_meta_data]. *)
Lemma Compute_Ok (op : ComputeFlowOp T) heap0 heap1
    (bottom_data bottom_points bottom_depth bottom_meta_data top_data top_points : Tensor T) :
  Compute op heap0 heap1 bottom_data bottom_points bottom_depth bottom_meta_data
    = Ok (top_data, top_points) ->
  forall n h w,
    0 <= n < dim_size bottom_data 0 ->
    0 <= h < dim_size bottom_data 1 ->
    0 <= w < dim_size bottom_data 2 ->
    pixel_post op (flat bottom_data) (flat bottom_points) (flat bottom_depth)
      (flat bottom_meta_data) (dim_size bottom_data 1) (dim_size bottom_data 2)
      (dim_size bottom_data 3) n h w (n * dim_size bottom_meta_data 3)
      (flat top_data) (flat top_points).
Proof.
  unfold Compute. intros Hrun n h w Hn Hh Hw.
  do 4 bind_inv Hrun. bind_inv Hrun. destruct a3 as [td tp].
  injection Hrun as <- <-. simpl.
  refine (pixel_loops_Ok _ _ _ _ _ _ _ _ _ _ _ _ _ _ Ha3 n h w Hn Hh Hw); lia.
Qed.

(** The shapes of the outputs. *)
Lemma Compute_shape (op : ComputeFlowOp T) heap0 heap1
    (bottom_data bottom_points bottom_depth bottom_meta_data top_data top_points : Tensor T) :
  Compute op heap0 heap1 bottom_data bottom_points bottom_depth bottom_meta_data
    = Ok (top_data, top_points) ->
  shape top_data = [dim_size bottom_data 0; dim_size bottom_data 1;
                    dim_size bottom_data 2; dim_size bottom_data 3] /\
  shape top_points = [dim_size bottom_data 0; dim_size bottom_data 1;
                      dim_size bottom_data 2; 3].
Proof.
  unfold Compute. intros Hrun.
  do 4 bind_inv Hrun. bind_inv Hrun. destruct a3 as [td tp].
  injection Hrun as <- <-. auto.
Qed.
End ComputeProofs.

(** * The claims *)

Section Claims.
Context {T : Type} `{ScalarLaws T}.

(** An iteration whose depth test fails ends after the initialisation:
    nothing of the feature data, the previous-frame point field or the
    metadata is read. *)
Lemma pixel_gated (op : ComputeFlowOp T) bd ip idp md height width num_channels
    n h w imd out depth bd' ip' md' imd' :
  read idp (index_of height width n h w) = Ok depth ->
  fgt depth (of_int 0) = false ->
  pixel op bd ip idp md height width num_channels n h w imd out =
  pixel op bd' ip' idp md' height width num_channels n h w imd' out.
Proof.
  intros Hdepth Hgt. unfold pixel, index_of in *. destruct out as [td tp].
  destruct (for_lt 0 num_channels _ td) as [td1|]; [simpl|reflexivity].
  destruct (write tp _ NAN) as [tp1|]; [simpl|reflexivity].
  destruct (write tp1 _ NAN) as [tp2|]; [simpl|reflexivity].
  destruct (write tp2 _ NAN) as [tp3|]; [simpl|reflexivity].
  rewrite Hdepth. simpl. rewrite Hgt. reflexivity.
Qed.

(** C3 (depth gating).  In a run of the forward kernel, a pixel whose
    input depth is [<= 0] has an all-zero output feature vector and the
    sentinel [NAN] in the three channels of its output point, and its
    iteration performs no neighbourhood search: its result is the same
    whatever the feature data, the previous-frame point field and the
    metadata are. *)
Theorem depth_gating (op : ComputeFlowOp T) heap0 heap1
    (bottom_data bottom_points bottom_depth bottom_meta_data top_data top_points : Tensor T)
    (n h w : Z) (depth : T) :
  Compute op heap0 heap1 bottom_data bottom_points bottom_depth bottom_meta_data
    = Ok (top_data, top_points) ->
  0 <= n < dim_size bottom_data 0 ->
  0 <= h < dim_size bottom_data 1 ->
  0 <= w < dim_size bottom_data 2 ->
  let height := dim_size bottom_data 1 in
  let width := dim_size bottom_data 2 in
  let num_channels := dim_size bottom_data 3 in
  let index_pixel := index_of height width n h w in
  read (flat bottom_depth) index_pixel = Ok depth ->
  fle depth (of_int 0) = true ->
  (forall c, 0 <= c < num_channels ->
     read (flat top_data) (index_pixel * num_channels + c) = Ok (of_int 0)) /\
  point_at (flat top_points) index_pixel = Some (NAN, NAN, NAN) /\
  (forall bd ip md imd bd' ip' md' imd' out,
     pixel op bd ip (flat bottom_depth) md height width num_channels n h w imd out =
     pixel op bd' ip' (flat bottom_depth) md' height width num_channels n h w imd' out).
Proof.
  intros Hrun Hn Hh Hw height width num_channels index_pixel Hdepth Hle.
  assert (Hgt : fgt depth (of_int 0) = false).
  { unfold fgt. destruct (flt (of_int 0) depth) eqn:E; [|reflexivity].
    apply flt_not_fle in E. congruence. }
  destruct (Compute_Ok _ _ _ _ _ _ _ _ _ Hrun n h w Hn Hh Hw)
    as (depth' & Hdepth' & Hpost).
  fold height width index_pixel in Hdepth'.
  rewrite Hdepth in Hdepth'. injection Hdepth' as <-.
  rewrite Hgt in Hpost. destruct Hpost as [Hpt Hdata].
  split; [exact Hdata|]. split; [exact Hpt|].
  intros. now apply (pixel_gated op _ _ _ _ _ _ _ _ _ _ _ _ depth).
Qed.

(** The source's expression of the reprojection and the matrix form of
    the specification agree. *)
Lemma backproject_spec meta_data record h w (d : T) :
  backproject meta_data record h w d = spec_reproject meta_data record w h d.
Proof.
  unfold backproject, spec_reproject, inverse_intrinsics, pose_live2world, meta_row3.
  replace (record + 9 + 1) with (record + 10) by ring.
  replace (record + 9 + 2) with (record + 11) by ring.
  replace (record + 12 + 1) with (record + 13) by ring.
  replace (record + 12 + 2) with (record + 14) by ring.
  replace (record + 15 + 1) with (record + 16) by ring.
  replace (record + 15 + 2) with (record + 17) by ring.
  replace (record + 30 + 1) with (record + 31) by ring.
  replace (record + 30 + 2) with (record + 32) by ring.
  replace (record + 34 + 1) with (record + 35) by ring.
  replace (record + 34 + 2) with (record + 36) by ring.
  replace (record + 38 + 1) with (record + 39) by ring.
  replace (record + 38 + 2) with (record + 40) by ring.
  repeat match goal with
         | |- context [read meta_data ?i] =>
             destruct (read meta_data i); simpl; [|reflexivity]
         end.
  rewrite !fmul_one_r. reflexivity.
Qed.

(** C5 (reprojector).  In a run of the forward kernel, the output point
    of a pixel (column [w], row [h]) of batch element [n] whose depth
    [d] is positive is the live-to-world pose (offsets 30..41 of the
    metadata record of [n]) applied to [d] times the ray obtained by
    applying the inverse intrinsic matrix (offsets 9..17) to [(w, h, 1)]. *)
Theorem reprojector_correct (op : ComputeFlowOp T) heap0 heap1
    (bottom_data bottom_points bottom_depth bottom_meta_data top_data top_points : Tensor T)
    (n h w : Z) (d : T) :
  Compute op heap0 heap1 bottom_data bottom_points bottom_depth bottom_meta_data
    = Ok (top_data, top_points) ->
  0 <= n < dim_size bottom_data 0 ->
  0 <= h < dim_size bottom_data 1 ->
  0 <= w < dim_size bottom_data 2 ->
  let index_pixel := index_of (dim_size bottom_data 1) (dim_size bottom_data 2) n h w in
  let record := n * dim_size bottom_meta_data 3 in
  read (flat bottom_depth) index_pixel = Ok d ->
  fgt d (of_int 0) = true ->
  exists kinv pose,
    inverse_intrinsics (flat bottom_meta_data) record = Ok kinv /\
    pose_live2world (flat bottom_meta_data) record = Ok pose /\
    point_at (flat top_points) index_pixel =
      Some (affine_apply pose (scale3 d (mat3_apply kinv (of_int w, of_int h, of_int 1)))).
Proof.
  intros Hrun Hn Hh Hw index_pixel record Hdepth Hgt.
  destruct (Compute_Ok _ _ _ _ _ _ _ _ _ Hrun n h w Hn Hh Hw)
    as (depth' & Hdepth' & Hpost).
  fold index_pixel in Hdepth'. rewrite Hdepth in Hdepth'. injection Hdepth' as <-.
  rewrite Hgt in Hpost.
  destruct Hpost as (X1 & Y1 & Z1 & b & Hback & Hpt & _).
  fold record in Hback. rewrite backproject_spec in Hback.
  unfold spec_reproject in Hback.
  bind_inv Hback. rename a into kinv. bind_inv Hback. rename a into pose.
  injection Hback as Hback. exists kinv, pose.
  split; [assumption|]. split; [assumption|].
  fold index_pixel in Hpt. rewrite Hpt, Hback. reflexivity.
Qed.

(** *** The search *)

Lemma candidate_in_image im_points height width n X1 Y1 Z1 x y (dis : T) :
  candidate im_points height width n X1 Y1 Z1 x y = Some dis ->
  0 <= x < width /\ 0 <= y < height.
Proof.
  unfold candidate.
  destruct (Z.geb_spec x 0), (Z.ltb_spec x width), (Z.geb_spec y 0),
    (Z.ltb_spec y height); simpl; try discriminate. lia.
Qed.

Lemma candidate_point im_points height width n X1 Y1 Z1 x y (dis : T) :
  candidate im_points height width n X1 Y1 Z1 x y = Some dis ->
  exists X Y Z,
    point_at im_points (index_of height width n y x) = Some (X, Y, Z) /\
    fisnan X = false /\ fisnan Y = false /\ fisnan Z = false /\
    dis = distance X1 Y1 Z1 X Y Z.
Proof.
  unfold candidate, undefined_point.
  destruct (_ && _); [|discriminate].
  destruct (point_at im_points _) as [[[X Y] Z]|]; [|discriminate].
  destruct (fisnan X) eqn:EX, (fisnan Y) eqn:EY, (fisnan Z) eqn:EZ;
    simpl; try discriminate.
  intros [= <-]. exists X, Y, Z. auto.
Qed.

Lemma neighbor_total im_points height width n X1 Y1 Z1 x y (b : best) :
  0 <= n -> (n + 1) * (height * width) * 3 <= Z.of_nat (length im_points) ->
  exists b', neighbor im_points height width n X1 Y1 Z1 x y b = Ok b'.
Proof.
  intros Hn Hlen. unfold neighbor.
  destruct (Z.geb_spec x 0), (Z.ltb_spec x width), (Z.geb_spec y 0),
    (Z.ltb_spec y height); simpl; eauto.
  pose proof (index_of_bounds height width n y x ltac:(lia) ltac:(lia)) as B.
  unfold index_of in B.
  destruct (read_in_range im_points ((n * height * width + y * width + x) * 3 + 0))
    as [X ->]; [nia|].
  destruct (read_in_range im_points ((n * height * width + y * width + x) * 3 + 1))
    as [Y ->]; [nia|].
  destruct (read_in_range im_points ((n * height * width + y * width + x) * 3 + 2))
    as [Z ->]; [nia|].
  simpl. destruct (_ || _); [eauto|]. destruct (flt _ _); eauto.
Qed.

(** The search returns normally when the point field covers batch
    element [n]. *)
Lemma search_total (op : ComputeFlowOp T) im_points height width n h w X1 Y1 Z1 :
  0 <= n -> (n + 1) * (height * width) * 3 <= Z.of_nat (length im_points) ->
  exists b, search op im_points height width n h w X1 Y1 Z1 = Ok b.
Proof.
  intros Hn Hlen. unfold search.
  destruct (for_le_total (fun _ (_ : best) => True)
              (fun x b =>
                 for_le (h - kernel_size_ op) (h + kernel_size_ op)
                   (fun y b => neighbor im_points height width n X1 Y1 Z1 x y b) b)
              (w - kernel_size_ op) (w + kernel_size_ op) best_init I)
    as (b & Hb & _); [|eauto].
  intros x t _ _.
  destruct (for_le_total (fun _ (_ : best) => True)
              (fun y b => neighbor im_points height width n X1 Y1 Z1 x y b)
              (h - kernel_size_ op) (h + kernel_size_ op) t I)
    as (b & Hb & _); [|eauto].
  intros y u _ _.
  destruct (neighbor_total im_points height width n X1 Y1 Z1 x y u Hn Hlen) as [b' Hb'].
  eauto.
Qed.

(** A visit changes the running minimum only for a valid neighbour that
    is strictly closer. *)
Lemma neighbor_changes im_points height width n X1 Y1 Z1 x y (b0 b1 : best) :
  neighbor im_points height width n X1 Y1 Z1 x y b0 = Ok b1 -> b1 <> b0 ->
  exists dis,
    candidate im_points height width n X1 Y1 Z1 x y = Some dis /\
    flt dis (dmin b0) = true /\ b1 = {| dmin := dis; fx := x; fy := y |}.
Proof.
  intros Hrun Hne. apply neighbor_Ok in Hrun.
  destruct (candidate _ _ _ _ _ _ _ _ _) as [dis|]; [|congruence].
  destruct (flt dis (dmin b0)) eqn:E; [|congruence]. eauto.
Qed.

(** The two cases of [search_post] are told apart by the sentinel. *)
Lemma search_post_found im_points height width k n h w X1 Y1 Z1 (b : best) :
  search_post im_points height width k n h w X1 Y1 Z1 b ->
  fx b <> -1 ->
  in_window k h w (fx b) (fy b) /\
  candidate im_points height width n X1 Y1 Z1 (fx b) (fy b) = Some (dmin b) /\
  flt (dmin b) (of_int 1000) = true /\
  forall x y dis, in_window k h w x y ->
    candidate im_points height width n X1 Y1 Z1 x y = Some dis ->
    (scanned_before x y (fx b) (fy b) -> fle dis (dmin b) = false) /\
    (scanned_before (fx b) (fy b) x y -> flt dis (dmin b) = false).
Proof. intros [[-> _] | Hfound] Hfx; [now contradiction Hfx | exact Hfound]. Qed.

(** C4 (tie-break), as the code has it.  With the loop bounds and the
    indices in the range of [int] and a point field that covers the batch
    element, the search terminates.  When some valid neighbour of the
    window is at a distance below the initial minimum [1000], the search
    selects a neighbour: it is valid, lies in the window and is at the
    returned distance, no valid neighbour of the window is at a distance
    [<] it (it is at most the distance of every valid neighbour that is
    comparable), and no valid neighbour that the scan (columns ascending,
    rows ascending within a column) visits earlier is at a distance [<=]
    it: among the neighbours at the least distance the first in scan order
    is selected.  When no valid neighbour of the window is below [1000],
    none is selected.  A visit replaces the running best only for a valid
    neighbour whose distance is strictly smaller. *)
Theorem tie_break (op : ComputeFlowOp T) im_points height width n h w X1 Y1 Z1 :
  search_in_int_range (kernel_size_ op) height width n h w ->
  (n + 1) * (height * width) * 3 <= Z.of_nat (length im_points) ->
  (exists b, search op im_points height width n h w X1 Y1 Z1 = Ok b /\
     ((exists x0 y0 dis0,
         in_window (kernel_size_ op) h w x0 y0 /\
         candidate im_points height width n X1 Y1 Z1 x0 y0 = Some dis0 /\
         flt dis0 (of_int 1000) = true) ->
      in_window (kernel_size_ op) h w (fx b) (fy b) /\
      candidate im_points height width n X1 Y1 Z1 (fx b) (fy b) = Some (dmin b) /\
      forall x y dis, in_window (kernel_size_ op) h w x y ->
        candidate im_points height width n X1 Y1 Z1 x y = Some dis ->
        flt dis (dmin b) = false /\
        (fisnan dis = false -> fle (dmin b) dis = true) /\
        (scanned_before x y (fx b) (fy b) -> fle dis (dmin b) = false)) /\
     ((forall x y dis, in_window (kernel_size_ op) h w x y ->
         candidate im_points height width n X1 Y1 Z1 x y = Some dis ->
         flt dis (of_int 1000) = false) ->
      b = best_init)) /\
  (forall x y b0 b1,
     neighbor im_points height width n X1 Y1 Z1 x y b0 = Ok b1 -> b1 <> b0 ->
     exists dis,
       candidate im_points height width n X1 Y1 Z1 x y = Some dis /\
       flt dis (dmin b0) = true /\ b1 = {| dmin := dis; fx := x; fy := y |}).
Proof.
  intros (Hk & Hn & Hh & Hw & _) Hlen. split; [|apply neighbor_changes].
  destruct (search_total op im_points height width n h w X1 Y1 Z1 Hn Hlen) as [b Hb].
  exists b. split; [assumption|].
  pose proof (search_Ok _ _ _ _ _ _ _ _ _ _ _ Hb) as Hpost. split.
  - intros (x0 & y0 & dis0 & Hw0 & Hc0 & Hd0).
    destruct Hpost as [[-> Hall] | (Hwin & Hc & Hd & Hall)].
    { rewrite (Hall x0 y0 dis0 Hw0 Hc0) in Hd0. discriminate. }
    split; [assumption|]. split; [assumption|].
    intros x y dis Hwxy Hcxy. destruct (Hall x y dis Hwxy Hcxy) as [Hearlier Hlater].
    assert (Hnlt : flt dis (dmin b) = false).
    { destruct (flt dis (dmin b)) eqn:E; [|reflexivity].
      assert (Hcases : scanned_before x y (fx b) (fy b) \/
                       (x = fx b /\ y = fy b) \/
                       scanned_before (fx b) (fy b) x y)
        by (unfold scanned_before; lia).
      destruct Hcases as [Hc1 | [[-> ->] | Hc3]].
      - rewrite (flt_fle _ _ E) in Hearlier. now specialize (Hearlier Hc1).
      - rewrite Hc in Hcxy. assert (dis = dmin b) as -> by congruence.
        pose proof (flt_fle _ _ E) as E1. pose proof (flt_not_fle _ _ E) as E2.
        congruence.
      - discriminate (Hlater Hc3). }
    split; [exact Hnlt|]. split; [|exact Hearlier].
    intros Hnan. apply fle_total; [exact Hnan | | exact Hnlt].
    exact (proj1 (flt_not_nan _ _ Hd)).
  - intros Hnone. destruct Hpost as [[-> _] | (Hwin & Hc & Hd & _)]; [reflexivity|].
    rewrite (Hnone _ _ _ Hwin Hc) in Hd. discriminate.
Qed.

(** C9 (implicit distance cap).  A visit never records a neighbour at a
    distance [>= 1000] when the running minimum is at most the initial
    [1000]; hence the search returns either the sentinel with
    [dmin = 1000], or a valid neighbour at a distance [< 1000]; and a
    returned neighbour passes the test [dmin < threshold_] exactly when
    its distance is below [min(threshold_, 1000)]. *)
Theorem distance_cap (op : ComputeFlowOp T) im_points height width n h w X1 Y1 Z1 b :
  search op im_points height width n h w X1 Y1 Z1 = Ok b ->
  (forall x y b0 b1,
     neighbor im_points height width n X1 Y1 Z1 x y b0 = Ok b1 -> b1 <> b0 ->
     b0 = best_init \/ flt (dmin b0) (of_int 1000) = true ->
     flt (dmin b1) (of_int 1000) = true /\ fge (dmin b1) (of_int 1000) = false) /\
  ((fx b = -1 /\ fy b = -1 /\ dmin b = of_int 1000) \/
   (fx b <> -1 /\
    candidate im_points height width n X1 Y1 Z1 (fx b) (fy b) = Some (dmin b) /\
    flt (dmin b) (of_int 1000) = true /\ fge (dmin b) (of_int 1000) = false /\
    (flt (dmin b) (threshold_ op) = true <->
     flt (dmin b) (fmin (threshold_ op) (of_int 1000)) = true))).
Proof.
  intros Hrun. split.
  - intros x y b0 b1 Hstep Hne Hcap.
    destruct (neighbor_changes _ _ _ _ _ _ _ _ _ _ _ Hstep Hne) as (dis & _ & Hlt & ->).
    simpl. assert (Hd : flt dis (of_int 1000) = true).
    { destruct Hcap as [-> | Hcap]; [exact Hlt | exact (flt_trans _ _ _ Hlt Hcap)]. }
    split; [assumption|]. unfold fge. now apply flt_not_fle.
  - destruct (search_Ok _ _ _ _ _ _ _ _ _ _ _ Hrun) as [[-> _] | (Hw & Hc & Hd & _)].
    + left. auto.
    + right. split.
      { apply candidate_in_image in Hc. lia. }
      split; [assumption|]. split; [assumption|].
      split; [unfold fge; now apply flt_not_fle|].
      unfold fmin. destruct (flt (of_int 1000) (threshold_ op)) eqn:E.
      * split; [auto|]. intros _. exact (flt_trans _ _ _ Hd E).
      * tauto.
Qed.

(** C10 (any-NaN test).  A visit skips a previous-frame point as soon as
    one of its three channels is NaN, and the point of a neighbour that
    the search returns has no NaN channel. *)
Theorem any_nan_skipped (op : ComputeFlowOp T) im_points height width n h w X1 Y1 Z1 :
  (forall x y b X Y Z,
     point_at im_points (index_of height width n y x) = Some (X, Y, Z) ->
     fisnan X = true \/ fisnan Y = true \/ fisnan Z = true ->
     neighbor im_points height width n X1 Y1 Z1 x y b = Ok b) /\
  (forall b,
     search op im_points height width n h w X1 Y1 Z1 = Ok b -> fx b <> -1 ->
     exists X Y Z,
       point_at im_points (index_of height width n (fy b) (fx b)) = Some (X, Y, Z) /\
       fisnan X = false /\ fisnan Y = false /\ fisnan Z = false).
Proof.
  split.
  - intros x y b X Y Z Hpt Hnan. unfold neighbor.
    destruct (_ && _); [|reflexivity].
    unfold point_at, index_of in Hpt.
    destruct (read im_points _) as [X'|]; [|discriminate].
    destruct (read im_points _) as [Y'|]; [|discriminate].
    destruct (read im_points _) as [Z'|]; [|discriminate].
    injection Hpt as -> -> ->. simpl.
    destruct Hnan as [-> | [-> | ->]]; rewrite ?orb_true_r; reflexivity.
  - intros b Hrun Hfx.
    destruct (search_post_found _ _ _ _ _ _ _ _ _ _ _ (search_Ok _ _ _ _ _ _ _ _ _ _ _ Hrun) Hfx)
      as (_ & Hc & _).
    destruct (candidate_point _ _ _ _ _ _ _ _ _ _ Hc) as (X & Y & Z & Hpt & HX & HY & HZ & _).
    exists X, Y, Z. auto.
Qed.

(** C8 (configuration errors).  Each of the three constructors rejects a
    negative [kernel_size] and a negative [threshold] with
    [InvalidArgument], and accepts [kernel_size >= 0] with
    [threshold >= 0]. *)
Theorem configuration_errors (kernel_size : Z) (threshold : T) :
  (kernel_size < 0 ->
   ComputeFlowOp_ctor kernel_size threshold
     = Err (InvalidArgument "Need kernel_size >= 0, got ") /\
   ComputeFlowOp_GPU_ctor kernel_size threshold
     = Err (InvalidArgument "Need kernel_size >= 0, got ") /\
   ComputeFlowGradOp_ctor kernel_size threshold
     = Err (InvalidArgument "Need kernel_size >= 0, got ")) /\
  (flt threshold (of_int 0) = true ->
   exists msg,
     ComputeFlowOp_ctor kernel_size threshold = Err (InvalidArgument msg) /\
     ComputeFlowOp_GPU_ctor kernel_size threshold = Err (InvalidArgument msg) /\
     ComputeFlowGradOp_ctor kernel_size threshold = Err (InvalidArgument msg)) /\
  (kernel_size >= 0 -> fge threshold (of_int 0) = true ->
   ComputeFlowOp_ctor kernel_size threshold
     = Ok {| kernel_size_ := kernel_size; threshold_ := threshold |} /\
   ComputeFlowOp_GPU_ctor kernel_size threshold
     = Ok {| kernel_size_ := kernel_size; threshold_ := threshold |} /\
   ComputeFlowGradOp_ctor kernel_size threshold
     = Ok {| grad_kernel_size_ := kernel_size; grad_threshold_ := threshold |}).
Proof.
  unfold ComputeFlowOp_ctor, ComputeFlowOp_GPU_ctor, ComputeFlowGradOp_ctor.
  split; [|split].
  - intros Hk. destruct (Z.geb_spec kernel_size 0); [lia|]. auto.
  - intros Hneg. apply flt_not_fle in Hneg. unfold fge. rewrite Hneg.
    destruct (kernel_size >=? 0); simpl; eauto.
  - intros Hk Hthr. destruct (Z.geb_spec kernel_size 0); [|lia].
    rewrite Hthr. auto.
Qed.
End Claims.

(** ** The claims on concrete inputs *)

(** C6 (self-match scenario).  On the 1x3x3 grid with depth
    [[1,1,1],[1,0,1],[1,1,1]], [kernel_size = 1], [threshold = 1000], the
    identity camera and the previous-frame points being the reprojected
    grid itself: the centre pixel gets a zero feature and an undefined
    point, every other pixel gets its reprojected point and its own
    feature value, and the search of every other pixel returns the pixel
    itself at distance 0. *)
Theorem self_match_scenario (heap0 heap1 : nat -> float) (v0 v1 v2 v3 v4 v5 v6 v7 v8 : float) :
  Compute self_op heap0 heap1 (self_data [v0; v1; v2; v3; v4; v5; v6; v7; v8])
    self_points self_depth self_meta
  = Ok (self_data [v0; v1; v2; v3; double_of_int 0; v5; v6; v7; v8], self_points) /\
  point_at (flat self_points) (index_of 3 3 0 1 1)
  = Some (PrimFloat.nan, PrimFloat.nan, PrimFloat.nan) /\
  Forall (fun '(h, w) =>
            point_at (flat self_points) (index_of 3 3 0 h w)
            = Some (double_of_int w, double_of_int h, double_of_int 1) /\
            search self_op (flat self_points) 3 3 0 h w
              (double_of_int w) (double_of_int h) (double_of_int 1)
            = Ok {| dmin := double_of_int 0; fx := w; fy := h |})
         [(0, 0); (0, 1); (0, 2); (1, 0); (1, 2); (2, 0); (2, 1); (2, 2)].
Proof.
  split; [vm_compute; reflexivity|]. split; [vm_compute; reflexivity|].
  repeat constructor; vm_compute; reflexivity.
Qed.

(** No pixel of [far_points] is a valid neighbour. *)
Lemma far_points_undefined n X1 Y1 Z1 x y :
  0 <= n < 2 -> candidate (flat far_points) 2 1 n X1 Y1 Z1 x y = None.
Proof.
  intros Hn. unfold candidate.
  destruct (Z.geb_spec x 0), (Z.ltb_spec x 1), (Z.geb_spec y 0), (Z.ltb_spec y 2);
    simpl; try reflexivity.
  assert (x = 0) as -> by lia.
  assert (Hy : y = 0 \/ y = 1) by lia.
  assert (Hn' : n = 0 \/ n = 1) by lia.
  destruct Hy as [-> | ->], Hn' as [-> | ->]; reflexivity.
Qed.

(** C1 (threshold gate) fails on the code.  With [threshold = 2000] and a
    previous-frame point field without any valid neighbour, the pixels of
    batch element 1 (depth 1) do not keep a zero feature: the search
    returns the sentinel with [dmin = 1000 < 2000], and the copy branch
    reads flat pixel [1*2*1 + (-1)*1 + (-1) = 0], the feature [5] of batch
    element 0. *)
Theorem threshold_gate_counterexample (heap0 heap1 : nat -> float) :
  (forall n X1 Y1 Z1 x y, 0 <= n < 2 ->
     candidate (flat far_points) 2 1 n X1 Y1 Z1 x y = None) /\
  PrimFloat.ltb (double_of_int 1000) (threshold_ far_op) = true /\
  search far_op (flat far_points) 2 1 1 0 0
    (double_of_int 0) (double_of_int 0) (double_of_int 1)
  = Ok {| dmin := double_of_int 1000; fx := -1; fy := -1 |} /\
  Compute far_op heap0 heap1 far_data far_points far_depth far_meta
  = Ok (tensor_of [2;2;1;1] (map double_of_int [0;0;5;5]),
        tensor_of [2;2;1;3]
          ([PrimFloat.nan; PrimFloat.nan; PrimFloat.nan;
            PrimFloat.nan; PrimFloat.nan; PrimFloat.nan]
           ++ map double_of_int [0;0;1; 0;1;1])).
Proof.
  split; [intros; now apply far_points_undefined|].
  repeat split; vm_compute; reflexivity.
Qed.

(** C2 (window bound, in-bounds copy) fails on the code.  On the same
    input the pixel [(n, h, w) = (1, 0, 0)] has the non-zero output
    feature [5] although its search returned [(fx, fy) = (-1, -1)], which
    is outside of the image; and with a single batch element the flat
    index of the copy branch is [0 + (-1)*1 + (-1) = -2], outside of the
    feature tensor. *)
Theorem window_bound_counterexample (heap0 heap1 : nat -> float) :
  (exists top_data top_points b,
     Compute far_op heap0 heap1 far_data far_points far_depth far_meta
       = Ok (top_data, top_points) /\
     read (flat top_data) (index_of 2 1 1 0 0 * 1 + 0) = Ok (double_of_int 5) /\
     PrimFloat.eqb (double_of_int 5) (double_of_int 0) = false /\
     search far_op (flat far_points) 2 1 1 0 0
       (double_of_int 0) (double_of_int 0) (double_of_int 1) = Ok b /\
     fx b = -1 /\ fy b = -1 /\ ~ (0 <= fx b < 1 /\ 0 <= fy b < 2)) /\
  index_of 1 1 0 (-1) (-1) * 1 + 0 = -2 /\
  read (flat one_data) (-2) = Err OutOfRange /\
  Compute far_op heap0 heap1 one_data one_points one_depth one_meta = Err OutOfRange.
Proof.
  split.
  - eexists _, _, _.
    split; [vm_compute; reflexivity|].
    split; [vm_compute; reflexivity|].
    split; [vm_compute; reflexivity|].
    split; [vm_compute; reflexivity|].
    split; [reflexivity|]. split; [reflexivity|].
    simpl. lia.
  - repeat split; vm_compute; reflexivity.
Qed.

(** C7 (batch independence) fails on the code.  Exchanging batch elements
    0 and 2 of all inputs does not exchange them in the output: with
    [threshold = 2000] the pixels of the middle element, which have no
    valid neighbour, copy the feature of the batch element stored before
    them ([1] in one order, [5] in the other). *)
Theorem batch_permutation_counterexample (heap0 heap1 : nat -> float) :
  let sigma := [2; 1; 0]%nat in
  exists top_data top_points top_data' top_points',
    Compute far_op heap0 heap1 perm_data perm_points perm_depth perm_meta
      = Ok (top_data, top_points) /\
    Compute far_op heap0 heap1 (permute_batches sigma perm_data)
      (permute_batches sigma perm_points) (permute_batches sigma perm_depth)
      (permute_batches sigma perm_meta)
      = Ok (top_data', top_points') /\
    flat top_data = map double_of_int [0;0;1;1;0;0] /\
    flat (permute_batches sigma top_data) = map double_of_int [0;0;1;1;0;0] /\
    flat top_data' = map double_of_int [0;0;5;5;0;0] /\
    top_data' <> permute_batches sigma top_data.
Proof.
  intros sigma. eexists _, _, _, _.
  split; [vm_compute; reflexivity|].
  split; [vm_compute; reflexivity|].
  split; [vm_compute; reflexivity|].
  split; [vm_compute; reflexivity|].
  split; [vm_compute; reflexivity|].
  intros Heq.
  apply (f_equal (fun t : Tensor float =>
                    match flat t !! 2%nat with
                    | Some v => PrimFloat.eqb v (double_of_int 5)
                    | None => false
                    end)) in Heq.
  vm_compute in Heq. discriminate.
Qed.

(** C4 as it is stated fails on the code: on [far_tie_points] the nine
    neighbours of the centre pixel are valid and achieve the same minimum
    distance, 1500, and the search selects none of them: it returns the
    sentinel, the initial minimum 1000 being smaller. *)
Lemma tie_break_counterexample :
  Forall (fun '(x, y) =>
            in_window (kernel_size_ self_op) 1 1 x y /\
            candidate far_tie_points 3 3 0
              (double_of_int 0) (double_of_int 0) (double_of_int 0) x y
            = Some (double_of_int 1500))
         [(0, 0); (0, 1); (0, 2); (1, 0); (1, 1); (1, 2); (2, 0); (2, 1); (2, 2)] /\
  search self_op far_tie_points 3 3 0 1 1
    (double_of_int 0) (double_of_int 0) (double_of_int 0)
  = Ok {| dmin := double_of_int 1000; fx := -1; fy := -1 |}.
Proof.
  split; [|vm_compute; reflexivity].
  repeat constructor; try (unfold in_window; simpl; lia); vm_compute; reflexivity.
Qed.

(** ** Instances of the general statements *)

Lemma depth_gating_witness :
  read (flat self_depth) (index_of 3 3 0 1 1) = Ok (double_of_int 0) /\
  fle (double_of_int 0) (of_int 0) = true /\
  (forall c, 0 <= c < 1 ->
     read (flat ten_to_eighteen_out) (index_of 3 3 0 1 1 * 1 + c) = Ok (of_int 0)) /\
  point_at (flat self_points) (index_of 3 3 0 1 1) = Some (NAN, NAN, NAN).
Proof.
  assert (Hrun : Compute self_op junk junk ten_to_eighteen self_points self_depth self_meta
                 = Ok (ten_to_eighteen_out, self_points)) by (vm_compute; reflexivity).
  assert (Hdepth : read (flat self_depth) (index_of 3 3 0 1 1) = Ok (double_of_int 0))
    by (vm_compute; reflexivity).
  assert (Hle : fle (double_of_int 0) (of_int 0) = true) by (vm_compute; reflexivity).
  destruct (depth_gating self_op junk junk ten_to_eighteen self_points self_depth self_meta
              ten_to_eighteen_out self_points 0 1 1 (double_of_int 0) Hrun
              ltac:(cbn; lia) ltac:(cbn; lia) ltac:(cbn; lia) Hdepth Hle)
    as (W1 & W2 & _).
  repeat split; assumption.
Defined.

Lemma reprojector_correct_witness :
  fgt (double_of_int 1) (of_int 0) = true /\
  exists kinv pose,
    inverse_intrinsics (flat self_meta) 0 = Ok kinv /\
    pose_live2world (flat self_meta) 0 = Ok pose /\
    point_at (flat self_points) (index_of 3 3 0 2 1) =
      Some (affine_apply pose
              (scale3 (double_of_int 1)
                 (mat3_apply kinv (double_of_int 1, double_of_int 2, double_of_int 1)))).
Proof.
  assert (Hrun : Compute self_op junk junk ten_to_eighteen self_points self_depth self_meta
                 = Ok (ten_to_eighteen_out, self_points)) by (vm_compute; reflexivity).
  assert (Hdepth : read (flat self_depth) (index_of 3 3 0 2 1) = Ok (double_of_int 1))
    by (vm_compute; reflexivity).
  assert (Hgt : fgt (double_of_int 1) (of_int 0) = true) by (vm_compute; reflexivity).
  split; [exact Hgt|].
  exact (reprojector_correct self_op junk junk ten_to_eighteen self_points self_depth
           self_meta ten_to_eighteen_out self_points 0 2 1 (double_of_int 1) Hrun
           ltac:(cbn; lia) ltac:(cbn; lia) ltac:(cbn; lia) Hdepth Hgt).
Defined.

(** On [tie_points] all nine neighbours of the centre pixel are at the
    same distance 0; the search returns the first of the scan, [(0, 0)]. *)
Lemma tie_break_witness :
  search_in_int_range (kernel_size_ self_op) 3 3 0 1 1 /\
  exists b,
    search self_op tie_points 3 3 0 1 1
      (double_of_int 5) (double_of_int 5) (double_of_int 5) = Ok b /\
    fx b = 0 /\ fy b = 0 /\
    in_window (kernel_size_ self_op) 1 1 (fx b) (fy b) /\
    candidate tie_points 3 3 0 (double_of_int 5) (double_of_int 5) (double_of_int 5)
      (fx b) (fy b) = Some (dmin b) /\
    forall x y dis, in_window (kernel_size_ self_op) 1 1 x y ->
      candidate tie_points 3 3 0 (double_of_int 5) (double_of_int 5) (double_of_int 5)
        x y = Some dis ->
      flt dis (dmin b) = false /\
      (fisnan dis = false -> fle (dmin b) dis = true) /\
      (scanned_before x y (fx b) (fy b) -> fle dis (dmin b) = false).
Proof.
  assert (Hrange : search_in_int_range (kernel_size_ self_op) 3 3 0 1 1)
    by (unfold search_in_int_range, INT_MAX; simpl; lia).
  assert (Hlen : (0 + 1) * (3 * 3) * 3 <= Z.of_nat (length tie_points))
    by (vm_compute; discriminate).
  assert (Hval : search self_op tie_points 3 3 0 1 1
                   (double_of_int 5) (double_of_int 5) (double_of_int 5)
                 = Ok {| dmin := double_of_int 0; fx := 0; fy := 0 |})
    by (vm_compute; reflexivity).
  assert (Hc : candidate tie_points 3 3 0 (double_of_int 5) (double_of_int 5)
                 (double_of_int 5) 0 0 = Some (double_of_int 0))
    by (vm_compute; reflexivity).
  assert (Hd : flt (double_of_int 0) (of_int 1000) = true) by (vm_compute; reflexivity).
  split; [exact Hrange|].
  destruct (proj1 (tie_break self_op tie_points 3 3 0 1 1
                     (double_of_int 5) (double_of_int 5) (double_of_int 5) Hrange Hlen))
    as (b & Hb & Hsel & _).
  exists b. split; [exact Hb|].
  assert (Hbv : b = {| dmin := double_of_int 0; fx := 0; fy := 0 |}) by congruence.
  split; [now rewrite Hbv|]. split; [now rewrite Hbv|].
  apply Hsel. exists 0, 0, (double_of_int 0).
  split; [unfold in_window; simpl; lia|]. split; [exact Hc | exact Hd].
Defined.

Lemma distance_cap_witness :
  (fx {| dmin := double_of_int 0; fx := 0; fy := 0 |} = -1 /\
   fy {| dmin := double_of_int 0; fx := 0; fy := 0 |} = -1 /\
   double_of_int 0 = of_int 1000) \/
  (0 <> -1 /\
   candidate tie_points 3 3 0 (double_of_int 5) (double_of_int 5) (double_of_int 5) 0 0
     = Some (double_of_int 0) /\
   flt (double_of_int 0) (of_int 1000) = true /\
   fge (double_of_int 0) (of_int 1000) = false /\
   (flt (double_of_int 0) (threshold_ self_op) = true <->
    flt (double_of_int 0) (fmin (threshold_ self_op) (of_int 1000)) = true)).
Proof.
  assert (Hrun : search self_op tie_points 3 3 0 1 1
                   (double_of_int 5) (double_of_int 5) (double_of_int 5)
                 = Ok {| dmin := double_of_int 0; fx := 0; fy := 0 |})
    by (vm_compute; reflexivity).
  exact (proj2 (distance_cap self_op tie_points 3 3 0 1 1
                  (double_of_int 5) (double_of_int 5) (double_of_int 5)
                  {| dmin := double_of_int 0; fx := 0; fy := 0 |} Hrun)).
Defined.

Lemma any_nan_skipped_witness :
  exists X Y Z,
    point_at tie_points (index_of 3 3 0 0 0) = Some (X, Y, Z) /\
    fisnan X = false /\ fisnan Y = false /\ fisnan Z = false.
Proof.
  assert (Hrun : search self_op tie_points 3 3 0 1 1
                   (double_of_int 5) (double_of_int 5) (double_of_int 5)
                 = Ok {| dmin := double_of_int 0; fx := 0; fy := 0 |})
    by (vm_compute; reflexivity).
  exact (proj2 (any_nan_skipped self_op tie_points 3 3 0 1 1
                  (double_of_int 5) (double_of_int 5) (double_of_int 5))
           {| dmin := double_of_int 0; fx := 0; fy := 0 |}
           Hrun ltac:(simpl; lia)).
Defined.

Lemma configuration_errors_witness :
  ComputeFlowOp_ctor (-1) (double_of_int 1000)
    = Err (InvalidArgument "Need kernel_size >= 0, got ") /\
  (exists msg, ComputeFlowGradOp_ctor 1 (double_of_int (-1)) = Err (InvalidArgument msg)) /\
  ComputeFlowOp_ctor 1 (double_of_int 1000) = Ok self_op.
Proof.
  split; [|split].
  - exact (proj1 (proj1 (configuration_errors (-1) (double_of_int 1000)) ltac:(lia))).
  - assert (Hneg : flt (double_of_int (-1)) (of_int 0) = true)
      by (vm_compute; reflexivity).
    destruct (proj1 (proj2 (configuration_errors 1 (double_of_int (-1)))) Hneg)
      as (msg & _ & _ & Hgrad).
    exists msg. exact Hgrad.
  - assert (Hpos : fge (double_of_int 1000) (of_int 0) = true)
      by (vm_compute; reflexivity).
    exact (proj1 (proj2 (proj2 (configuration_errors 1 (double_of_int 1000)))
                    ltac:(lia) Hpos)).
Defined.

(** * Further properties of the operators *)

(** ** Failures *)

Section LoopFailures.
Context {St : Type}.

(** A loop fails only with a failure of its body. *)
Lemma for_loop_Err (Q : Status -> Prop) (body : Z -> St -> result St) count i s e :
  (forall j t e', body j t = Err e' -> Q e') ->
  for_loop count i body s = Err e -> Q e.
Proof.
  intros Hbody. revert i s. induction count as [|k IH]; intros i s; simpl.
  - discriminate.
  - destruct (body i s) as [s'|e'] eqn:E; simpl.
    + apply IH.
    + intros [= <-]. exact (Hbody _ _ _ E).
Qed.

(** Loops whose bodies agree on the values of the loop variable agree. *)
Lemma for_loop_ext (body body' : Z -> St -> result St) count i s :
  (forall j t, i <= j < i + Z.of_nat count -> body j t = body' j t) ->
  for_loop count i body s = for_loop count i body' s.
Proof.
  revert i s. induction count as [|k IH]; intros i s Hext; simpl; [reflexivity|].
  rewrite <- (Hext i s) by lia. destruct (body i s) as [s'|e]; simpl; [|reflexivity].
  apply IH. intros j t Hj. apply Hext. lia.
Qed.
End LoopFailures.

Section Failures.
Context {T : Type} `{Scalar T}.

Lemma read_Err (buf : list T) i e : read buf i = Err e -> e = OutOfRange.
Proof.
  unfold read. destruct (i <? 0); [congruence|].
  destruct (buf !! Z.to_nat i); congruence.
Qed.

Lemma write_Err (buf : list T) i v e : write buf i v = Err e -> e = OutOfRange.
Proof. unfold write. destruct (_ && _); congruence. Qed.

Ltac walk_Err :=
  repeat match goal with
         | |- Err _ = Err _ -> _ => intros [= <-]
         | |- write _ _ _ = Err _ -> _ => apply write_Err
         | |- read _ _ = Err _ -> _ => apply read_Err
         | |- Ok _ = Err _ -> _ => discriminate
         | |- bind ?c _ = Err _ -> _ =>
             let E := fresh "E" in destruct c eqn:E; simpl
         | |- (let '(_, _) := ?p in _) = Err _ -> _ => destruct p
         | |- (if ?c then _ else _) = Err _ -> _ => destruct c
         | E : read _ _ = Err _ |- _ => exact (read_Err _ _ _ E)
         | E : write _ _ _ = Err _ |- _ => exact (write_Err _ _ _ _ E)
         end.

Lemma neighbor_Err im_points height width n X1 Y1 Z1 x y (b : best) e :
  neighbor im_points height width n X1 Y1 Z1 x y b = Err e -> e = OutOfRange.
Proof. unfold neighbor. walk_Err. Qed.

Lemma search_Err (op : ComputeFlowOp T) im_points height width n h w X1 Y1 Z1 e :
  search op im_points height width n h w X1 Y1 Z1 = Err e -> e = OutOfRange.
Proof.
  unfold search, for_le. apply (for_loop_Err (fun e0 => e0 = OutOfRange)). intros x t e'.
  apply (for_loop_Err (fun e0 => e0 = OutOfRange)). intros y u e''. apply neighbor_Err.
Qed.

Lemma backproject_Err meta_data record h w (d : T) e :
  backproject meta_data record h w d = Err e -> e = OutOfRange.
Proof. unfold backproject. walk_Err. Qed.

Lemma pixel_Err (op : ComputeFlowOp T) bd ip idp md height width num_channels
    n h w imd out e :
  pixel op bd ip idp md height width num_channels n h w imd out = Err e ->
  e = OutOfRange.
Proof.
  unfold pixel. destruct out as [td tp].
  destruct (for_lt 0 num_channels _ td) as [td1|e1] eqn:E1; simpl.
  2:{ intros [= <-]. revert E1. unfold for_lt. apply (for_loop_Err (fun e0 => e0 = OutOfRange)).
      intros j t e'. apply write_Err. }
  walk_Err.
  all: match goal with
       | E : backproject _ _ _ _ _ = Err _ |- _ => exact (backproject_Err _ _ _ _ _ _ E)
       | E : search _ _ _ _ _ _ _ _ _ _ = Err _ |- _ =>
           exact (search_Err _ _ _ _ _ _ _ _ _ _ _ E)
       | E : for_lt _ _ _ _ = Err _ |- _ =>
           revert E; unfold for_lt; apply (for_loop_Err (fun e0 => e0 = OutOfRange));
           intros j u e'; walk_Err
       end.
Qed.

Lemma pixel_loops_Err (op : ComputeFlowOp T) bd ip idp md height width num_channels
    batch_size num_meta_data out e :
  pixel_loops op bd ip idp md height width num_channels batch_size num_meta_data out
    = Err e ->
  e = OutOfRange.
Proof.
  unfold pixel_loops.
  destruct (for_lt 0 batch_size _ _) as [[out' imd]|e1] eqn:E1; simpl; [discriminate|].
  intros [= <-]. revert E1. unfold for_lt. apply (for_loop_Err (fun e0 => e0 = OutOfRange)).
  intros n [t imd] e'. unfold batch.
  destruct (for_lt 0 height _ t) as [t'|e2] eqn:E2; simpl; [discriminate|].
  intros [= <-]. revert E2. unfold for_lt.
  apply (for_loop_Err (fun e0 => e0 = OutOfRange)). intros hh u e3.
  apply (for_loop_Err (fun e0 => e0 = OutOfRange)). intros ww v e4. apply pixel_Err.
Qed.
End Failures.

(** ** Validation of the inputs *)

Section Validation.
Context {T : Type} `{Scalar T}.

(** The forward CPU kernel checks the ranks of its inputs in the order
    data, points, depth, meta data and reports the first that is not 4;
    it reports [InvalidArgument] for no other reason. *)
Theorem Compute_rank_check (op : ComputeFlowOp T) heap0 heap1
    (bottom_data bottom_points bottom_depth bottom_meta_data : Tensor T) :
  let run := Compute op heap0 heap1 bottom_data bottom_points bottom_depth
               bottom_meta_data in
  (dims bottom_data <> 4 ->
   run = Err (InvalidArgument "data must be 4-dimensional")) /\
  (dims bottom_data = 4 -> dims bottom_points <> 4 ->
   run = Err (InvalidArgument "points must be 4-dimensional")) /\
  (dims bottom_data = 4 -> dims bottom_points = 4 -> dims bottom_depth <> 4 ->
   run = Err (InvalidArgument "depth must be 4-dimensional")) /\
  (dims bottom_data = 4 -> dims bottom_points = 4 -> dims bottom_depth = 4 ->
   dims bottom_meta_data <> 4 ->
   run = Err (InvalidArgument "meta data must be 4-dimensional")) /\
  (forall msg, run = Err (InvalidArgument msg) ->
     dims bottom_data <> 4 \/ dims bottom_points <> 4 \/
     dims bottom_depth <> 4 \/ dims bottom_meta_data <> 4).
Proof.
  intros run. subst run. unfold Compute.
  destruct (Z.eqb_spec (dims bottom_data) 4) as [E1|E1]; simpl.
  2:{ repeat split; try tauto. }
  destruct (Z.eqb_spec (dims bottom_points) 4) as [E2|E2]; simpl.
  2:{ repeat split; try tauto. }
  destruct (Z.eqb_spec (dims bottom_depth) 4) as [E3|E3]; simpl.
  2:{ repeat split; try tauto. }
  destruct (Z.eqb_spec (dims bottom_meta_data) 4) as [E4|E4]; simpl.
  2:{ repeat split; try tauto. }
  repeat split; try tauto.
  intros msg.
  destruct (pixel_loops _ _ _ _ _ _ _ _ _ _ _) as [[td tp]|e] eqn:E; simpl;
    [discriminate|].
  intros [= ->]. apply pixel_loops_Err in E. discriminate.
Qed.

(** The accelerator kernel validates like the CPU kernel (the message for
    the point field differs), and on inputs of rank 4 returns what the
    launcher leaves in the two freshly allocated buffers, with the shapes
    [N,H,W,C] and [N,H,W,3] read from the feature tensor. *)
Theorem Compute_GPU_validates
    (launcher : list T -> list T -> list T -> list T -> Z -> Z -> Z -> Z -> Z -> Z -> T ->
                list T -> list T -> list T * list T)
    (op : ComputeFlowOp T) heap0 heap1
    (bottom_data bottom_points bottom_depth bottom_meta_data : Tensor T) :
  let gpu := Compute_GPU launcher op heap0 heap1 bottom_data bottom_points bottom_depth
               bottom_meta_data in
  let cpu := Compute op heap0 heap1 bottom_data bottom_points bottom_depth
               bottom_meta_data in
  let batch_size := dim_size bottom_data 0 in
  let height := dim_size bottom_data 1 in
  let width := dim_size bottom_data 2 in
  let num_channels := dim_size bottom_data 3 in
  ((exists msg, gpu = Err (InvalidArgument msg)) <->
   (exists msg, cpu = Err (InvalidArgument msg))) /\
  (dims bottom_data = 4 -> dims bottom_points <> 4 ->
   gpu = Err (InvalidArgument "label must be 4-dimensional") /\
   cpu = Err (InvalidArgument "points must be 4-dimensional")) /\
  (dims bottom_data = 4 -> dims bottom_points = 4 -> dims bottom_depth = 4 ->
   dims bottom_meta_data = 4 ->
   exists top_data top_points,
     gpu = Ok (top_data, top_points) /\
     shape top_data = [batch_size; height; width; num_channels] /\ shape top_points = [batch_size; height; width; 3] /\
     (flat top_data, flat top_points) =
     launcher (flat bottom_data) (flat bottom_points) (flat bottom_depth)
       (flat bottom_meta_data) batch_size height width num_channels (dim_size bottom_meta_data 3)
       (kernel_size_ op) (threshold_ op)
       (flat (allocate_output heap0 [batch_size; height; width; num_channels]))
       (flat (allocate_output heap1 [batch_size; height; width; 3]))).
Proof.
  intros gpu cpu batch_size height width num_channels.
  subst gpu cpu. unfold Compute_GPU, ComputingFlowKernel, Compute.
  destruct (Z.eqb_spec (dims bottom_data) 4) as [E1|E1]; simpl.
  2:{ repeat split; try tauto; eauto. }
  destruct (Z.eqb_spec (dims bottom_points) 4) as [E2|E2]; simpl.
  2:{ repeat split; try tauto; eauto. }
  destruct (Z.eqb_spec (dims bottom_depth) 4) as [E3|E3]; simpl.
  2:{ repeat split; try tauto; eauto. }
  destruct (Z.eqb_spec (dims bottom_meta_data) 4) as [E4|E4]; simpl.
  2:{ repeat split; try tauto; eauto. }
  fold batch_size height width num_channels.
  destruct (launcher _ _ _ _ _ _ _ _ _ _ _ _ _) as [td tp] eqn:EL.
  split; [|split].
  - split.
    + intros [msg [=]].
    + intros [msg Hcpu].
      destruct (pixel_loops _ _ _ _ _ _ _ _ _ _ _) as [[td' tp']|e] eqn:E;
        simpl in Hcpu; [discriminate|].
      injection Hcpu as ->. apply pixel_loops_Err in E. discriminate.
  - tauto.
  - intros _ _ _ _. eexists _, _. split; [reflexivity|]. simpl.
    repeat split.
Qed.

End Validation.

(** ** Sizes of the outputs *)

Section Sizes.
Context {T : Type} `{Scalar T}.

Lemma pixel_length (op : ComputeFlowOp T) bd ip idp md height width num_channels
    n h w imd out out' :
  pixel op bd ip idp md height width num_channels n h w imd out = Ok out' ->
  length (fst out') = length (fst out) /\ length (snd out') = length (snd out).
Proof.
  destruct out as [td tp], out' as [td' tp']. intros Hrun.
  destruct (pixel_Ok _ _ _ _ _ _ _ _ _ _ _ _ _ _ _ _ Hrun) as ([L1 _] & [L2 _] & _).
  auto.
Qed.

Lemma pixel_loops_length (op : ComputeFlowOp T) bd ip idp md height width num_channels
    batch_size num_meta_data out out' :
  pixel_loops op bd ip idp md height width num_channels batch_size num_meta_data out
    = Ok out' ->
  length (fst out') = length (fst out) /\ length (snd out') = length (snd out).
Proof.
  unfold pixel_loops. intros Hrun. bind_inv Hrun. destruct a as [out1 imd].
  injection Hrun as <-.
  apply (for_lt_inv
           (fun _ (s : list T * list T * Z) =>
              length (fst (fst s)) = length (fst out) /\
              length (snd (fst s)) = length (snd out))) in Ha; [exact Ha | auto |].
  intros n [t imd0] [t' imd'] _ Hinv Hstep. simpl in *.
  unfold batch in Hstep. bind_inv Hstep. injection Hstep as <- _.
  apply (for_lt_inv
           (fun _ (s : list T * list T) =>
              length (fst s) = length (fst out) /\ length (snd s) = length (snd out)))
    in Ha0; [exact Ha0 | exact Hinv |].
  intros hh u u' _ Hinv' Hrow.
  apply (for_lt_inv
           (fun _ (s : list T * list T) =>
              length (fst s) = length (fst out) /\ length (snd s) = length (snd out)))
    in Hrow; [exact Hrow | exact Hinv' |].
  intros ww v v' _ [L1 L2] Hpix. apply pixel_length in Hpix.
  destruct Hpix as [-> ->]. auto.
Qed.

(** The outputs of a successful run have the shapes [N,H,W,C] and
    [N,H,W,3] read from the feature tensor, and buffers of exactly that
    many elements. *)
Theorem Compute_output_sizes (op : ComputeFlowOp T) heap0 heap1
    (bottom_data bottom_points bottom_depth bottom_meta_data top_data top_points : Tensor T) :
  Compute op heap0 heap1 bottom_data bottom_points bottom_depth bottom_meta_data
    = Ok (top_data, top_points) ->
  let batch_size := dim_size bottom_data 0 in
  let height := dim_size bottom_data 1 in
  let width := dim_size bottom_data 2 in
  let num_channels := dim_size bottom_data 3 in
  shape top_data = [batch_size; height; width; num_channels] /\
  shape top_points = [batch_size; height; width; 3] /\
  length (flat top_data) = Z.to_nat (batch_size * height * width * num_channels) /\
  length (flat top_points) = Z.to_nat (batch_size * height * width * 3).
Proof.
  intros Hrun batch_size height width num_channels.
  destruct (Compute_shape _ _ _ _ _ _ _ _ _ Hrun) as [S1 S2].
  split; [exact S1|]. split; [exact S2|].
  unfold Compute in Hrun. do 4 bind_inv Hrun. bind_inv Hrun. destruct a3 as [td tp].
  injection Hrun as <- <-. simpl.
  apply pixel_loops_length in Ha3. simpl in Ha3. destruct Ha3 as [-> ->].
  rewrite !List.length_map, !List.length_seq.
  fold batch_size height width num_channels.
  split; f_equal; ring.
Qed.
End Sizes.

(** ** Edge cases of the matcher *)

Section Edges.
Context {T : Type} `{ScalarLaws T}.

(** A NaN depth is treated like a missing measurement: the pixel keeps a
    zero feature vector and an undefined point. *)
Theorem depth_nan_gated (op : ComputeFlowOp T) heap0 heap1
    (bottom_data bottom_points bottom_depth bottom_meta_data top_data top_points : Tensor T)
    (n h w : Z) (depth : T) :
  Compute op heap0 heap1 bottom_data bottom_points bottom_depth bottom_meta_data
    = Ok (top_data, top_points) ->
  0 <= n < dim_size bottom_data 0 ->
  0 <= h < dim_size bottom_data 1 ->
  0 <= w < dim_size bottom_data 2 ->
  let num_channels := dim_size bottom_data 3 in
  let index_pixel := index_of (dim_size bottom_data 1) (dim_size bottom_data 2) n h w in
  read (flat bottom_depth) index_pixel = Ok depth ->
  fisnan depth = true ->
  (forall c, 0 <= c < num_channels ->
     read (flat top_data) (index_pixel * num_channels + c) = Ok (of_int 0)) /\
  point_at (flat top_points) index_pixel = Some (NAN, NAN, NAN).
Proof.
  intros Hrun Hn Hh Hw num_channels index_pixel Hdepth Hnan.
  assert (Hgt : fgt depth (of_int 0) = false).
  { unfold fgt. destruct (flt (of_int 0) depth) eqn:E; [|reflexivity].
    apply flt_not_nan in E. destruct E as [_ E]. congruence. }
  destruct (Compute_Ok _ _ _ _ _ _ _ _ _ Hrun n h w Hn Hh Hw)
    as (depth' & Hdepth' & Hpost).
  fold index_pixel in Hdepth'. rewrite Hdepth in Hdepth'. injection Hdepth' as <-.
  rewrite Hgt in Hpost. destruct Hpost as [Hpt Hdata]. auto.
Qed.

(** With [kernel_size = 0] the search is the single visit of the pixel
    itself: it returns the sentinel, or the pixel [(w, h)] with the
    distance to its own previous-frame point. *)
Theorem search_kernel_size_zero (op : ComputeFlowOp T) im_points height width
    n h w X1 Y1 Z1 :
  kernel_size_ op = 0 ->
  search op im_points height width n h w X1 Y1 Z1
  = neighbor im_points height width n X1 Y1 Z1 w h best_init /\
  forall b, search op im_points height width n h w X1 Y1 Z1 = Ok b ->
    b = best_init \/
    (fx b = w /\ fy b = h /\
     candidate im_points height width n X1 Y1 Z1 w h = Some (dmin b) /\
     flt (dmin b) (of_int 1000) = true).
Proof.
  intros Hk.
  assert (Heq : search op im_points height width n h w X1 Y1 Z1
                = neighbor im_points height width n X1 Y1 Z1 w h best_init).
  { unfold search, for_le. rewrite Hk.
    replace (Z.to_nat (w + 0 + 1 - (w - 0))) with 1%nat by lia.
    replace (Z.to_nat (h + 0 + 1 - (h - 0))) with 1%nat by lia.
    replace (w - 0) with w by lia. replace (h - 0) with h by lia.
    simpl. destruct (neighbor _ _ _ _ _ _ _ _ _ _); reflexivity. }
  split; [exact Heq|].
  intros b Hrun. rewrite Heq in Hrun. apply neighbor_Ok in Hrun.
  destruct (candidate _ _ _ _ _ _ _ _ _) as [dis|]; [|auto].
  simpl in Hrun. destruct (flt dis (of_int 1000)) eqn:E; [|auto].
  right. subst b. auto.
Qed.

(** The search of a pixel of batch element [n] depends on the
    previous-frame point field through the points of batch element [n]
    only. *)
Theorem search_batch_local (op : ComputeFlowOp T) im_points im_points' height width
    n h w X1 Y1 Z1 :
  same_inside (n * (height * width) * 3) ((n + 1) * (height * width) * 3)
    im_points im_points' ->
  search op im_points height width n h w X1 Y1 Z1
  = search op im_points' height width n h w X1 Y1 Z1.
Proof.
  intros Hsame. unfold search, for_le.
  apply for_loop_ext. intros x b _.
  apply for_loop_ext. intros y b' _.
  unfold neighbor.
  destruct (Z.geb_spec x 0), (Z.ltb_spec x width), (Z.geb_spec y 0),
    (Z.ltb_spec y height); simpl; try reflexivity.
  pose proof (index_of_bounds height width n y x ltac:(lia) ltac:(lia)) as B.
  unfold index_of in B.
  rewrite !(Hsame _) by nia. reflexivity.
Qed.
End Edges.

(** ** The transfer when the threshold does not exceed the initial minimum *)

Section Transfer.
Context {T : Type} `{ScalarLaws T}.

Lemma flt_irrefl (x : T) : flt x x = false.
Proof.
  destruct (flt x x) eqn:E; [|reflexivity].
  pose proof (flt_fle _ _ E) as E1. pose proof (flt_not_fle _ _ E) as E2. congruence.
Qed.

(** When [1000 < threshold_] does not hold, the feature vector of every
    pixel of a successful run is all-zero, or it is the feature vector of
    a pixel of the same batch element that lies in the search window and
    in the image, whose previous-frame point is defined and at a distance
    below the threshold from the pixel's output point. *)
Theorem guarded_transfer (op : ComputeFlowOp T) heap0 heap1
    (bottom_data bottom_points bottom_depth bottom_meta_data top_data top_points : Tensor T)
    (n h w : Z) :
  Compute op heap0 heap1 bottom_data bottom_points bottom_depth bottom_meta_data
    = Ok (top_data, top_points) ->
  flt (of_int 1000) (threshold_ op) = false ->
  0 <= n < dim_size bottom_data 0 ->
  0 <= h < dim_size bottom_data 1 ->
  0 <= w < dim_size bottom_data 2 ->
  let height := dim_size bottom_data 1 in
  let width := dim_size bottom_data 2 in
  let num_channels := dim_size bottom_data 3 in
  let index_pixel := index_of height width n h w in
  (forall c, 0 <= c < num_channels ->
     read (flat top_data) (index_pixel * num_channels + c) = Ok (of_int 0)) \/
  (exists X1 Y1 Z1 x y dis,
     point_at (flat top_points) index_pixel = Some (X1, Y1, Z1) /\
     in_window (kernel_size_ op) h w x y /\
     0 <= x < width /\ 0 <= y < height /\
     candidate (flat bottom_points) height width n X1 Y1 Z1 x y = Some dis /\
     flt dis (threshold_ op) = true /\
     forall c, 0 <= c < num_channels ->
       exists v,
         read (flat bottom_data) (index_of height width n y x * num_channels + c) = Ok v /\
         read (flat top_data) (index_pixel * num_channels + c) = Ok v).
Proof.
  intros Hrun Hguard Hn Hh Hw height width num_channels index_pixel.
  destruct (Compute_Ok _ _ _ _ _ _ _ _ _ Hrun n h w Hn Hh Hw)
    as (depth & Hdepth & Hpost).
  fold height width num_channels index_pixel in Hpost.
  destruct (fgt depth (of_int 0)); [|left; tauto].
  destruct Hpost as (X1 & Y1 & Z1 & b & Hback & Hpt & Hsearch & Hdata).
  destruct (flt (dmin b) (threshold_ op)) eqn:Hthr; [|left; exact Hdata].
  right.
  destruct (search_Ok _ _ _ _ _ _ _ _ _ _ _ Hsearch) as [[-> _] | (Hwin & Hc & _ & _)].
  - simpl in Hthr. congruence.
  - destruct (candidate_in_image _ _ _ _ _ _ _ _ _ _ Hc) as [Hx Hy].
    exists X1, Y1, Z1, (fx b), (fy b), (dmin b). auto 10.
Qed.

(** With the sizes, loop bounds and flat indices in the range of [int]:
    a valid neighbour of the window at a distance below both [1000] and
    the threshold forces a transfer: the pixel's feature vector is that
    of a valid neighbour of the window which is at least as close and
    below the threshold. *)
Theorem close_neighbor_transfers (op : ComputeFlowOp T) heap0 heap1
    (bottom_data bottom_points bottom_depth bottom_meta_data top_data top_points : Tensor T)
    (n h w : Z) (depth X1 Y1 Z1 : T) (x0 y0 : Z) (dis0 : T) :
  Compute op heap0 heap1 bottom_data bottom_points bottom_depth bottom_meta_data
    = Ok (top_data, top_points) ->
  in_int_range (kernel_size_ op) (dim_size bottom_data 0) (dim_size bottom_data 1)
    (dim_size bottom_data 2) (dim_size bottom_data 3) (dim_size bottom_meta_data 3) ->
  0 <= n < dim_size bottom_data 0 ->
  0 <= h < dim_size bottom_data 1 ->
  0 <= w < dim_size bottom_data 2 ->
  let height := dim_size bottom_data 1 in
  let width := dim_size bottom_data 2 in
  let num_channels := dim_size bottom_data 3 in
  let index_pixel := index_of height width n h w in
  read (flat bottom_depth) index_pixel = Ok depth ->
  fgt depth (of_int 0) = true ->
  point_at (flat top_points) index_pixel = Some (X1, Y1, Z1) ->
  in_window (kernel_size_ op) h w x0 y0 ->
  candidate (flat bottom_points) height width n X1 Y1 Z1 x0 y0 = Some dis0 ->
  flt dis0 (of_int 1000) = true ->
  flt dis0 (threshold_ op) = true ->
  exists x y dis,
    in_window (kernel_size_ op) h w x y /\
    candidate (flat bottom_points) height width n X1 Y1 Z1 x y = Some dis /\
    fle dis dis0 = true /\ flt dis (threshold_ op) = true /\
    forall c, 0 <= c < num_channels ->
      exists v,
        read (flat bottom_data) (index_of height width n y x * num_channels + c) = Ok v /\
        read (flat top_data) (index_pixel * num_channels + c) = Ok v.
Proof.
  intros Hrun _ Hn Hh Hw height width num_channels index_pixel
    Hdepth Hgt Hpoint Hwin0 Hc0 H1000 Hthr0.
  destruct (Compute_Ok _ _ _ _ _ _ _ _ _ Hrun n h w Hn Hh Hw)
    as (depth' & Hdepth' & Hpost).
  fold height width num_channels index_pixel in Hdepth', Hpost.
  rewrite Hdepth in Hdepth'. injection Hdepth' as <-. rewrite Hgt in Hpost.
  destruct Hpost as (X1' & Y1' & Z1' & b & Hback & Hpt & Hsearch & Hdata).
  rewrite Hpoint in Hpt. injection Hpt as <- <- <-.
  destruct (search_Ok _ _ _ _ _ _ _ _ _ _ _ Hsearch)
    as [[-> Hall] | (Hwin & Hc & Hd & Hall)].
  - rewrite (Hall x0 y0 dis0 Hwin0 Hc0) in H1000. discriminate.
  - assert (Hle : fle (dmin b) dis0 = true).
    { apply fle_total.
      - exact (proj1 (flt_not_nan _ _ H1000)).
      - exact (proj1 (flt_not_nan _ _ Hd)).
      - destruct (flt dis0 (dmin b)) eqn:E; [|reflexivity].
        destruct (Hall x0 y0 dis0 Hwin0 Hc0) as [Hearlier Hlater].
        assert (Hcases : scanned_before x0 y0 (fx b) (fy b) \/
                         (x0 = fx b /\ y0 = fy b) \/
                         scanned_before (fx b) (fy b) x0 y0)
          by (unfold scanned_before; lia).
        destruct Hcases as [Hc1 | [[-> ->] | Hc3]].
        + rewrite (flt_fle _ _ E) in Hearlier. now specialize (Hearlier Hc1).
        + rewrite Hc in Hc0. injection Hc0 as <-. now rewrite flt_irrefl in E.
        + rewrite (Hlater Hc3) in E. discriminate. }
    pose proof (fle_flt_trans _ _ _ Hle Hthr0) as Hthr. rewrite Hthr in Hdata.
    exists (fx b), (fy b), (dmin b). auto 10.
Qed.
End Transfer.

(** ** Absence of out-of-range accesses *)

Section Safety.
Context {T : Type} `{ScalarLaws T}.

Lemma write_total (buf : list T) i v :
  0 <= i < Z.of_nat (length buf) ->
  exists buf', write buf i v = Ok buf' /\ length buf' = length buf.
Proof.
  intros Hi. exists (<[Z.to_nat i := v]> buf). split; [|apply length_insert].
  apply write_Ok. auto.
Qed.

Lemma write_loop_total (f : Z -> result T) base count i (l : list T) :
  (forall c, i <= c < i + Z.of_nat count -> exists v, f c = Ok v) ->
  0 <= base + i -> base + i + Z.of_nat count <= Z.of_nat (length l) ->
  exists l',
    for_loop count i (fun c td => let* v := f c in write td (base + c) v) l = Ok l' /\
    length l' = length l.
Proof.
  intros Hf Hlo Hhi.
  destruct (for_loop_total (fun _ (l' : list T) => length l' = length l)
              (fun c td => let* v := f c in write td (base + c) v) count i l eq_refl)
    as (l' & Hl' & Hlen); [|eauto].
  intros c t Hc Ht. destruct (Hf c Hc) as [v ->]. simpl.
  destruct (write_total t (base + c) v) as (t' & -> & Lt'); [rewrite Ht; lia|].
  exists t'. split; [reflexivity | congruence].
Qed.

Lemma backproject_total meta_data record h w (d : T) :
  0 <= record -> record + 42 <= Z.of_nat (length meta_data) ->
  exists P, backproject meta_data record h w d = Ok P.
Proof.
  intros Hlo Hhi. unfold backproject.
  repeat match goal with
         | |- context [read meta_data ?i] =>
             let v := fresh "m" in
             destruct (read_in_range meta_data i) as [v ->]; [lia|]; simpl
         end.
  eauto.
Qed.

(** The iteration of a pixel of the image returns normally when the
    buffers have the sizes of their shapes. *)
Lemma pixel_total (op : ComputeFlowOp T) bd ip idp md
    height width num_channels batch_size num_meta_data n h w td tp :
  0 <= num_channels -> 42 <= num_meta_data ->
  0 <= n < batch_size -> 0 <= h < height -> 0 <= w < width ->
  Z.of_nat (length bd) = batch_size * (height * width) * num_channels ->
  Z.of_nat (length ip) = batch_size * (height * width) * 3 ->
  Z.of_nat (length idp) = batch_size * (height * width) ->
  Z.of_nat (length md) = batch_size * num_meta_data ->
  Z.of_nat (length td) = batch_size * (height * width) * num_channels ->
  Z.of_nat (length tp) = batch_size * (height * width) * 3 ->
  flt (of_int 1000) (threshold_ op) = false ->
  exists out',
    pixel op bd ip idp md height width num_channels n h w (n * num_meta_data) (td, tp)
    = Ok out'.
Proof.
  intros HC HM Hn Hh Hw Lbd Lip Lidp Lmd Ltd Ltp Hguard.
  pose proof (index_of_bounds height width n h w Hh Hw) as Bp.
  unfold pixel. fold (index_of height width n h w).
  set (p := index_of height width n h w) in *.
  assert (Hp : 0 <= p < batch_size * (height * width)) by nia.
  destruct (write_loop_total (fun _ => Ok (of_int 0)) (p * num_channels)
              (Z.to_nat (num_channels - 0)) 0 td) as (td1 & E1 & L1);
    [eauto | nia | nia |].
  assert (E1' : for_lt 0 num_channels
                  (fun c td => write td (p * num_channels + c) (of_int 0)) td = Ok td1)
    by exact E1.
  rewrite E1'. simpl.
  destruct (write_total tp (p * 3 + 0) NAN) as (tp1 & -> & LW1); [lia|]. simpl.
  destruct (write_total tp1 (p * 3 + 1) NAN) as (tp2 & -> & LW2); [lia|]. simpl.
  destruct (write_total tp2 (p * 3 + 2) NAN) as (tp3 & -> & LW3); [lia|]. simpl.
  destruct (read_in_range idp p) as [depth ->]; [lia|]. simpl.
  destruct (fgt depth (of_int 0)); [|eauto].
  destruct (backproject_total md (n * num_meta_data) h w depth) as [[[X1 Y1] Z1] ->];
    [nia | nia |]. simpl.
  destruct (write_total tp3 (p * 3 + 0) X1) as (tp4 & -> & LW4); [lia|]. simpl.
  destruct (write_total tp4 (p * 3 + 1) Y1) as (tp5 & -> & LW5); [lia|]. simpl.
  destruct (write_total tp5 (p * 3 + 2) Z1) as (tp6 & -> & LW6); [lia|]. simpl.
  destruct (search_total op ip height width n h w X1 Y1 Z1) as [b Hb]; [lia | nia |].
  rewrite Hb. simpl.
  destruct (flt (dmin b) (threshold_ op)) eqn:Hthr; [|eauto].
  destruct (search_Ok _ _ _ _ _ _ _ _ _ _ _ Hb) as [[-> _] | (_ & Hc & _ & _)].
  { simpl in Hthr. congruence. }
  destruct (candidate_in_image _ _ _ _ _ _ _ _ _ _ Hc) as [Hx Hy].
  pose proof (index_of_bounds height width n (fy b) (fx b) Hy Hx) as Bq.
  fold (index_of height width n (fy b) (fx b)).
  set (q := index_of height width n (fy b) (fx b)) in *.
  destruct (write_loop_total (fun c => read bd (q * num_channels + c)) (p * num_channels)
              (Z.to_nat (num_channels - 0)) 0 td1) as (td2 & E2 & L2).
  - intros c Hc'. apply read_in_range.
    assert (0 <= q < batch_size * (height * width)) by nia.
    assert ((q + 1) * num_channels <= batch_size * (height * width) * num_channels)
      by (apply Z.mul_le_mono_nonneg_r; lia).
    assert (0 <= q * num_channels) by nia. lia.
  - nia.
  - rewrite L1.
    assert ((p + 1) * num_channels <= batch_size * (height * width) * num_channels)
      by (apply Z.mul_le_mono_nonneg_r; lia).
    lia.
  - assert (E2' : for_lt 0 num_channels
                    (fun c td => let* v := read bd (q * num_channels + c) in
                                 write td (p * num_channels + c) v) td1 = Ok td2)
      by exact E2.
    rewrite E2'. simpl. eauto.
Qed.

Lemma pixel_loops_total (op : ComputeFlowOp T) bd ip idp md
    height width num_channels batch_size num_meta_data out :
  0 <= num_channels -> 42 <= num_meta_data ->
  Z.of_nat (length bd) = batch_size * (height * width) * num_channels ->
  Z.of_nat (length ip) = batch_size * (height * width) * 3 ->
  Z.of_nat (length idp) = batch_size * (height * width) ->
  Z.of_nat (length md) = batch_size * num_meta_data ->
  Z.of_nat (length (fst out)) = batch_size * (height * width) * num_channels ->
  Z.of_nat (length (snd out)) = batch_size * (height * width) * 3 ->
  flt (of_int 1000) (threshold_ op) = false ->
  exists out',
    pixel_loops op bd ip idp md height width num_channels batch_size num_meta_data out
    = Ok out'.
Proof.
  intros HC HM Lbd Lip Lidp Lmd Ltd Ltp Hguard. unfold pixel_loops.
  pose (sized := fun s : list T * list T =>
          Z.of_nat (length (fst s)) = batch_size * (height * width) * num_channels /\
          Z.of_nat (length (snd s)) = batch_size * (height * width) * 3).
  destruct (for_lt_total
              (fun n (s : list T * list T * Z) =>
                 snd s = n * num_meta_data /\ sized (fst s))
              (batch op bd ip idp md height width num_channels num_meta_data)
              0 batch_size (out, 0)) as ([out' imd] & -> & _).
  - simpl. split; [ring | split; assumption].
  - intros n [t imd] Hn [Himd Hsz]. simpl in Himd, Hsz. subst imd. unfold batch.
    destruct (for_lt_total (fun _ s => sized s)
                (fun hh o =>
                   for_lt 0 width
                     (fun ww o' =>
                        pixel op bd ip idp md height width num_channels n hh ww
                          (n * num_meta_data) o') o)
                0 height t Hsz) as (t' & -> & Hsz').
    + intros hh u Hh Hu.
      apply (for_lt_total (fun _ s => sized s)
               (fun ww o' =>
                  pixel op bd ip idp md height width num_channels n hh ww
                    (n * num_meta_data) o')
               0 width u Hu).
      intros ww [vd vp] Hw [Hvd Hvp]. simpl in Hvd, Hvp.
      destruct (pixel_total op bd ip idp md height width num_channels batch_size
                  num_meta_data n hh ww vd vp) as [o' Ho']; try assumption; try lia.
      exists o'. split; [assumption|].
      apply pixel_length in Ho'. destruct Ho' as [L1 L2]. simpl in L1, L2.
      split; congruence.
    + simpl. eexists. split; [reflexivity|]. simpl. split; [ring | assumption].
  - simpl. eauto.
Qed.

(** No access leaves its buffer when the four inputs have the shapes
    [N,H,W,C], [N,H,W,3], [N,H,W,1] and [N,1,1,M] with [M >= 42], their
    buffers have the sizes of their shapes, the sizes, loop bounds and
    flat indices stay in the range of [int], and [1000 < threshold_] does
    not hold: the kernel returns its two outputs. *)
Theorem Compute_safe (op : ComputeFlowOp T) heap0 heap1
    (bottom_data bottom_points bottom_depth bottom_meta_data : Tensor T)
    (batch_size height width num_channels num_meta_data : Z) :
  in_int_range (kernel_size_ op) batch_size height width num_channels num_meta_data ->
  42 <= num_meta_data ->
  has_shape bottom_data [batch_size; height; width; num_channels] ->
  has_shape bottom_points [batch_size; height; width; 3] ->
  has_shape bottom_depth [batch_size; height; width; 1] ->
  has_shape bottom_meta_data [batch_size; 1; 1; num_meta_data] ->
  flt (of_int 1000) (threshold_ op) = false ->
  exists top_data top_points,
    Compute op heap0 heap1 bottom_data bottom_points bottom_depth bottom_meta_data
    = Ok (top_data, top_points) /\
    has_shape top_data [batch_size; height; width; num_channels] /\
    has_shape top_points [batch_size; height; width; 3].
Proof.
  intros (_ & [HN _] & [HH _] & [HW _] & [HC _] & _) HM
    [Sbd Lbd] [Sbp Lbp] [Sbdep Lbdep] [Smeta Lmeta] Hguard.
  unfold num_elements in *. simpl in Lbd, Lbp, Lbdep, Lmeta.
  destruct (pixel_loops_total op (flat bottom_data) (flat bottom_points)
              (flat bottom_depth) (flat bottom_meta_data)
              height width num_channels batch_size num_meta_data
              (flat (allocate_output heap0 [batch_size; height; width; num_channels]),
               flat (allocate_output heap1 [batch_size; height; width; 3])))
    as ([td tp] & Hout); try assumption; try lia.
  - simpl. rewrite List.length_map, List.length_seq. nia.
  - simpl. rewrite List.length_map, List.length_seq. nia.
  - pose proof (pixel_loops_length _ _ _ _ _ _ _ _ _ _ _ _ Hout) as [L1 L2].
    simpl in L1, L2. rewrite List.length_map, List.length_seq in L1, L2.
    exists {| shape := [batch_size; height; width; num_channels]; flat := td |},
           {| shape := [batch_size; height; width; 3]; flat := tp |}.
    split.
    + unfold Compute, dims, dim_size. rewrite Sbd, Sbp, Sbdep, Smeta.
      simpl. simpl in Hout. rewrite Hout. reflexivity.
    + unfold has_shape. simpl. rewrite L1, L2. repeat split; nia.
Qed.
End Safety.

(** ** Independence of the contents of the allocated memory *)

Section LoopRelations.
Context {St : Type}.

(** Two runs of a loop from related states. *)
Lemma for_loop_rel (R : Z -> St -> St -> Prop) (body : Z -> St -> result St)
    count i s1 s2 s1' :
  for_loop count i body s1 = Ok s1' ->
  R i s1 s2 ->
  (forall j t1 t2 t1', i <= j < i + Z.of_nat count -> R j t1 t2 ->
     body j t1 = Ok t1' -> exists t2', body j t2 = Ok t2' /\ R (j + 1) t1' t2') ->
  exists s2', for_loop count i body s2 = Ok s2' /\ R (i + Z.of_nat count) s1' s2'.
Proof.
  revert i s1 s2. induction count as [|k IH]; intros i s1 s2 Hrun HR Hstep.
  - injection Hrun as <-. exists s2. split; [reflexivity|].
    now replace (i + Z.of_nat 0) with i by lia.
  - simpl in Hrun. bind_inv Hrun.
    destruct (Hstep i s1 s2 a ltac:(lia) HR Ha) as (t2 & Ht2 & HR').
    destruct (IH (i + 1) a t2 Hrun HR') as (s2' & Hs2' & HR'').
    + intros j t1 t2' t1' Hj. apply Hstep. lia.
    + exists s2'. simpl. rewrite Ht2. simpl. split; [assumption|].
      now replace (i + Z.of_nat (S k)) with (i + 1 + Z.of_nat k) by lia.
Qed.

Lemma for_lt_rel (R : Z -> St -> St -> Prop) (body : Z -> St -> result St)
    lo hi s1 s2 s1' :
  for_lt lo hi body s1 = Ok s1' ->
  R lo s1 s2 ->
  (forall j t1 t2 t1', lo <= j < hi -> R j t1 t2 ->
     body j t1 = Ok t1' -> exists t2', body j t2 = Ok t2' /\ R (j + 1) t1' t2') ->
  exists s2', for_lt lo hi body s2 = Ok s2' /\ R (Z.max lo hi) s1' s2'.
Proof.
  unfold for_lt. intros Hrun HR Hstep.
  replace (Z.max lo hi) with (lo + Z.of_nat (Z.to_nat (hi - lo))) by lia.
  apply (for_loop_rel R body _ _ s1 s2 s1' Hrun HR).
  intros j t1 t2 t1' Hj. apply Hstep. lia.
Qed.
End LoopRelations.

Section HeapIndependence.
Context {T : Type} `{Scalar T}.

Lemma write_lengths_only (l1 l2 : list T) i v l1' :
  length l1 = length l2 -> write l1 i v = Ok l1' ->
  exists l2', write l2 i v = Ok l2' /\ length l1' = length l2'.
Proof.
  intros L [Hi ->]%write_Ok.
  exists (<[Z.to_nat i := v]> l2). split.
  - apply write_Ok. split; [lia | reflexivity].
  - rewrite !length_insert. exact L.
Qed.

Lemma write_loop_lengths_only (f : Z -> result T) base count i (l1 l2 l1' : list T) :
  length l1 = length l2 ->
  for_loop count i (fun c td => let* v := f c in write td (base + c) v) l1 = Ok l1' ->
  exists l2',
    for_loop count i (fun c td => let* v := f c in write td (base + c) v) l2 = Ok l2'.
Proof.
  intros L Hrun.
  destruct (for_loop_rel (fun _ (t1 t2 : list T) => length t1 = length t2)
              _ count i l1 l2 l1' Hrun L) as (l2' & Hl2' & _); [|eauto].
  intros j t1 t2 t1' _ Lt Hbody. bind_inv Hbody. rewrite Ha. simpl.
  exact (write_lengths_only t1 t2 _ _ _ Lt Hbody).
Qed.

(** Whether an iteration returns normally depends on the output buffers
    through their lengths only. *)
Lemma pixel_lengths_only (op : ComputeFlowOp T) bd ip idp md height width num_channels
    n h w imd td1 tp1 td2 tp2 o1 :
  length td1 = length td2 -> length tp1 = length tp2 ->
  pixel op bd ip idp md height width num_channels n h w imd (td1, tp1) = Ok o1 ->
  exists o2, pixel op bd ip idp md height width num_channels n h w imd (td2, tp2) = Ok o2.
Proof.
  intros Ld Lp. unfold pixel. set (p := n * height * width + h * width + w).
  intros Hrun.
  apply bind_Ok in Hrun. destruct Hrun as (u1 & Hinit & Hrun).
  destruct (write_loop_lengths_only (fun _ => Ok (of_int 0)) (p * num_channels)
              _ _ td1 td2 u1 Ld Hinit) as [u2 Hinit2].
  assert (Hinit2' : for_lt 0 num_channels
                      (fun c td => write td (p * num_channels + c) (of_int 0)) td2
                    = Ok u2) by exact Hinit2.
  rewrite Hinit2'. simpl.
  assert (Lu : length u1 = length u2).
  { apply (write_loop (fun _ => Ok (of_int 0))) in Hinit. destruct Hinit as [[L _] _].
    apply (write_loop (fun _ => Ok (of_int 0))) in Hinit2. destruct Hinit2 as [[L' _] _].
    congruence. }
  apply bind_Ok in Hrun. destruct Hrun as (r1 & W1 & Hrun).
  destruct (write_lengths_only _ _ _ _ _ Lp W1) as (q1 & -> & Lq1). simpl.
  apply bind_Ok in Hrun. destruct Hrun as (r2 & W2 & Hrun).
  destruct (write_lengths_only _ _ _ _ _ Lq1 W2) as (q2 & -> & Lq2). simpl.
  apply bind_Ok in Hrun. destruct Hrun as (r3 & W3 & Hrun).
  destruct (write_lengths_only _ _ _ _ _ Lq2 W3) as (q3 & -> & Lq3). simpl.
  apply bind_Ok in Hrun. destruct Hrun as (depth & -> & Hrun). simpl.
  destruct (fgt depth (of_int 0)); [|eauto].
  apply bind_Ok in Hrun. destruct Hrun as ([[X1 Y1] Z1] & -> & Hrun). simpl.
  apply bind_Ok in Hrun. destruct Hrun as (r4 & W4 & Hrun).
  destruct (write_lengths_only _ _ _ _ _ Lq3 W4) as (q4 & -> & Lq4). simpl.
  apply bind_Ok in Hrun. destruct Hrun as (r5 & W5 & Hrun).
  destruct (write_lengths_only _ _ _ _ _ Lq4 W5) as (q5 & -> & Lq5). simpl.
  apply bind_Ok in Hrun. destruct Hrun as (r6 & W6 & Hrun).
  destruct (write_lengths_only _ _ _ _ _ Lq5 W6) as (q6 & -> & Lq6). simpl.
  apply bind_Ok in Hrun. destruct Hrun as (b & -> & Hrun). simpl.
  destruct (flt (dmin b) (threshold_ op)); [|eauto].
  apply bind_Ok in Hrun. destruct Hrun as (u1' & Hcopy1 & Hrun).
  destruct (write_loop_lengths_only
              (fun c => read bd ((n * height * width + fy b * width + fx b)
                                 * num_channels + c))
              (p * num_channels) _ _ u1 u2 _ Lu Hcopy1) as [u3 Hcopy].
  assert (Hcopy' : for_lt 0 num_channels
                     (fun c td =>
                        let* v := read bd ((n * height * width + fy b * width + fx b)
                                           * num_channels + c) in
                        write td (p * num_channels + c) v) u2 = Ok u3) by exact Hcopy.
  rewrite Hcopy'. simpl. eauto.
Qed.

Lemma point_at_Some (l : list T) index X Y Z :
  point_at l index = Some (X, Y, Z) ->
  read l (index * 3 + 0) = Ok X /\ read l (index * 3 + 1) = Ok Y /\
  read l (index * 3 + 2) = Ok Z.
Proof.
  unfold point_at.
  destruct (read l (index * 3 + 0)); [|discriminate].
  destruct (read l (index * 3 + 1)); [|discriminate].
  destruct (read l (index * 3 + 2)); [|discriminate].
  intros [= -> -> ->]. auto.
Qed.

(** The contents that [pixel_post] gives to a pixel are determined by the
    inputs. *)
Lemma pixel_post_functional (op : ComputeFlowOp T) bd ip idp md height width num_channels
    n h w imd td tp td' tp' :
  pixel_post op bd ip idp md height width num_channels n h w imd td tp ->
  pixel_post op bd ip idp md height width num_channels n h w imd td' tp' ->
  (exists P, point_at tp (index_of height width n h w) = Some P /\
             point_at tp' (index_of height width n h w) = Some P) /\
  forall c, 0 <= c < num_channels ->
    read td (index_of height width n h w * num_channels + c)
    = read td' (index_of height width n h w * num_channels + c).
Proof.
  unfold pixel_post. intros (d & Hd & P1) (d' & Hd' & P2).
  rewrite Hd in Hd'. injection Hd' as <-.
  destruct (fgt d (of_int 0)).
  - destruct P1 as (X1 & Y1 & Z1 & b & HB & Hpt & HS & HD).
    destruct P2 as (X1' & Y1' & Z1' & b' & HB' & Hpt' & HS' & HD').
    rewrite HB in HB'. injection HB' as <- <- <-.
    rewrite HS in HS'. injection HS' as <-.
    split; [eauto|].
    intros c Hc. destruct (flt (dmin b) (threshold_ op)).
    + destruct (HD c Hc) as (v & Hv & ->). destruct (HD' c Hc) as (v' & Hv' & ->).
      congruence.
    + rewrite (HD c Hc), (HD' c Hc). reflexivity.
  - destruct P1 as [Hpt HD], P2 as [Hpt' HD']. split; [eauto|].
    intros c Hc. rewrite (HD c Hc), (HD' c Hc). reflexivity.
Qed.

(** One iteration keeps two runs in agreement and extends the agreement
    to the slots of its pixel. *)
Lemma pixel_agree (op : ComputeFlowOp T) bd ip idp md height width num_channels
    n h w imd o1 o2 o1' :
  0 <= num_channels -> 0 <= index_of height width n h w ->
  agree_below num_channels (index_of height width n h w) o1 o2 ->
  pixel op bd ip idp md height width num_channels n h w imd o1 = Ok o1' ->
  exists o2',
    pixel op bd ip idp md height width num_channels n h w imd o2 = Ok o2' /\
    agree_below num_channels (index_of height width n h w + 1) o1' o2'.
Proof.
  intros HC Hp (L1 & L2 & A1 & A2) Hrun.
  destruct o1 as [td1 tp1], o2 as [td2 tp2], o1' as [td1' tp1']. simpl in *.
  destruct (pixel_lengths_only _ _ _ _ _ _ _ _ _ _ _ _ _ _ _ _ _ L1 L2 Hrun)
    as [[td2' tp2'] Hrun2].
  exists (td2', tp2'). split; [exact Hrun2|].
  destruct (pixel_Ok _ _ _ _ _ _ _ _ _ _ _ _ _ _ _ _ Hrun) as (S1 & P1 & Q1).
  destruct (pixel_Ok _ _ _ _ _ _ _ _ _ _ _ _ _ _ _ _ Hrun2) as (S2 & P2 & Q2).
  destruct (pixel_post_functional _ _ _ _ _ _ _ _ _ _ _ _ _ _ _ _ Q1 Q2)
    as [([[X Y] Z] & Hpt1 & Hpt2) Hfeat].
  set (p := index_of height width n h w) in *.
  unfold agree_below. simpl.
  split; [destruct S1 as [-> _], S2 as [-> _]; exact L1|].
  split; [destruct P1 as [-> _], P2 as [-> _]; exact L2|].
  split.
  - intros j Hj. destruct (Z_lt_le_dec j (p * num_channels)) as [Hlt | Hge].
    + rewrite (read_same_outside _ _ _ _ j S1), (read_same_outside _ _ _ _ j S2) by lia.
      apply A1. lia.
    + replace j with (p * num_channels + (j - p * num_channels)) by ring.
      apply Hfeat. lia.
  - apply point_at_Some in Hpt1, Hpt2.
    destruct Hpt1 as (R0 & R1 & R2), Hpt2 as (R0' & R1' & R2').
    intros j Hj. destruct (Z_lt_le_dec j (p * 3)) as [Hlt | Hge].
    + rewrite (read_same_outside _ _ _ _ j P1), (read_same_outside _ _ _ _ j P2) by lia.
      apply A2. lia.
    + assert (Hcases : j = p * 3 + 0 \/ j = p * 3 + 1 \/ j = p * 3 + 2) by lia.
      destruct Hcases as [-> | [-> | ->]]; congruence.
Qed.

Lemma pixel_loops_agree (op : ComputeFlowOp T) bd ip idp md height width num_channels
    batch_size num_meta_data o1 o2 o1' :
  0 <= batch_size -> 0 <= height -> 0 <= width -> 0 <= num_channels ->
  agree_below num_channels 0 o1 o2 ->
  pixel_loops op bd ip idp md height width num_channels batch_size num_meta_data o1
    = Ok o1' ->
  exists o2',
    pixel_loops op bd ip idp md height width num_channels batch_size num_meta_data o2
      = Ok o2' /\
    agree_below num_channels (batch_size * (height * width)) o1' o2'.
Proof.
  intros HN HH HW HC Hag Hrun. unfold pixel_loops in *.
  apply bind_Ok in Hrun. destruct Hrun as ([t1 imd1] & Hloop & Hrun).
  injection Hrun as <-.
  destruct (for_lt_rel
              (fun n (s1 s2 : list T * list T * Z) =>
                 snd s1 = snd s2 /\
                 agree_below num_channels (index_of height width n 0 0) (fst s1) (fst s2))
              _ 0 batch_size (o1, 0) (o2, 0) (t1, imd1) Hloop)
    as ([t2 imd2] & -> & _ & Hend).
  - simpl. split; [reflexivity|]. exact Hag.
  - intros n [u1 i1] [u2 i2] [u1' i1'] Hn [Hi Hu] Hstep. simpl in Hi, Hu. subst i2.
    unfold batch in *.
    apply bind_Ok in Hstep. destruct Hstep as (v1 & Hrows & Hstep).
    injection Hstep as <- <-.
    destruct (for_lt_rel
                (fun hh (s1 s2 : list T * list T) =>
                   agree_below num_channels (index_of height width n hh 0) s1 s2)
                _ 0 height u1 u2 v1 Hrows Hu) as (v2 & -> & Hv).
    + intros hh w1 w2 w1' Hh Hw1 Hrow.
      destruct (for_lt_rel
                  (fun ww (s1 s2 : list T * list T) =>
                     agree_below num_channels (index_of height width n hh ww) s1 s2)
                  _ 0 width w1 w2 w1' Hrow Hw1) as (w2' & Hw2' & Hw').
      * intros ww x1 x2 x1' Hww Hx Hpix.
        replace (index_of height width n hh (ww + 1))
          with (index_of height width n hh ww + 1) by (unfold index_of; ring).
        apply (pixel_agree op bd ip idp md height width num_channels n hh ww
                 i1 x1 x2 x1'); try assumption.
        apply index_of_nonneg; lia.
      * exists w2'. split; [exact Hw2'|].
        replace (index_of height width n (hh + 1) 0)
          with (index_of height width n hh (Z.max 0 width)); [exact Hw'|].
        unfold index_of. rewrite Z.max_r by assumption. ring.
    + simpl. eexists. split; [reflexivity|]. simpl. split; [reflexivity|].
      replace (index_of height width (n + 1) 0 0)
        with (index_of height width n (Z.max 0 height) 0); [exact Hv|].
      unfold index_of. rewrite Z.max_r by assumption. ring.
  - simpl. eexists. split; [reflexivity|]. simpl in Hend.
    replace (batch_size * (height * width))
      with (index_of height width (Z.max 0 batch_size) 0 0); [exact Hend|].
    unfold index_of. rewrite Z.max_r by assumption. ring.
Qed.

Lemma same_inside_eq (l1 l2 : list T) K :
  length l1 = length l2 -> Z.of_nat (length l1) <= K -> same_inside 0 K l1 l2 ->
  l1 = l2.
Proof.
  intros L HK Hsame. apply list_eq. intros i.
  destruct (Nat.lt_ge_cases i (length l1)) as [Hlt | Hge].
  - specialize (Hsame (Z.of_nat i) ltac:(lia)). unfold read in Hsame.
    destruct (Z.ltb_spec (Z.of_nat i) 0); [lia|].
    rewrite Nat2Z.id in Hsame.
    destruct (lookup_lt_is_Some_2 l1 i Hlt) as [v1 E1].
    destruct (lookup_lt_is_Some_2 l2 i ltac:(lia)) as [v2 E2].
    rewrite E1, E2 in *. congruence.
  - rewrite !lookup_ge_None_2 by lia. reflexivity.
Qed.

(** The outputs do not depend on what the allocated memory holds: every
    element of both outputs is written by the kernel. *)
Theorem Compute_heap_independent (op : ComputeFlowOp T) heap0 heap1 heap0' heap1'
    (bottom_data bottom_points bottom_depth bottom_meta_data : Tensor T) out :
  0 <= dim_size bottom_data 0 -> 0 <= dim_size bottom_data 1 ->
  0 <= dim_size bottom_data 2 -> 0 <= dim_size bottom_data 3 ->
  Compute op heap0 heap1 bottom_data bottom_points bottom_depth bottom_meta_data
    = Ok out ->
  Compute op heap0' heap1' bottom_data bottom_points bottom_depth bottom_meta_data
    = Ok out.
Proof.
  intros HN HH HW HC Hrun. unfold Compute in *.
  destruct (OP_REQUIRES (dims bottom_data =? 4) _); [simpl in *|discriminate].
  destruct (OP_REQUIRES (dims bottom_points =? 4) _); [simpl in *|discriminate].
  destruct (OP_REQUIRES (dims bottom_depth =? 4) _); [simpl in *|discriminate].
  destruct (OP_REQUIRES (dims bottom_meta_data =? 4) _); [simpl in *|discriminate].
  apply bind_Ok in Hrun. destruct Hrun as ([td tp] & Hloops & Hrun).
  injection Hrun as <-.
  set (N := dim_size bottom_data 0) in *. set (Hh := dim_size bottom_data 1) in *.
  set (W := dim_size bottom_data 2) in *. set (C := dim_size bottom_data 3) in *.
  pose proof (pixel_loops_length _ _ _ _ _ _ _ _ _ _ _ _ Hloops) as [L1 L2].
  simpl in L1, L2. rewrite List.length_map, List.length_seq in L1, L2.
  destruct (pixel_loops_agree op (flat bottom_data) (flat bottom_points)
              (flat bottom_depth) (flat bottom_meta_data) Hh W C N
              (dim_size bottom_meta_data 3)
              (map heap0 (seq 0 (Z.to_nat (N * (Hh * (W * (C * 1)))))),
               map heap1 (seq 0 (Z.to_nat (N * (Hh * (W * (3 * 1)))))))
              (map heap0' (seq 0 (Z.to_nat (N * (Hh * (W * (C * 1)))))),
               map heap1' (seq 0 (Z.to_nat (N * (Hh * (W * (3 * 1)))))))
              (td, tp) HN HH HW HC) as ([td' tp'] & -> & (A1 & A2 & A3 & A4)).
  - unfold agree_below. simpl. rewrite !List.length_map, !List.length_seq.
    repeat split; intros i Hi; lia.
  - exact Hloops.
  - simpl in *.
    assert (td = td') as <-.
    { apply (same_inside_eq td td' (N * (Hh * W) * C) A1); [|exact A3].
      rewrite L1. nia. }
    assert (tp = tp') as <-.
    { apply (same_inside_eq tp tp' (N * (Hh * W) * 3) A2); [|exact A4].
      rewrite L2. nia. }
    reflexivity.
Qed.
End HeapIndependence.

(** ** Independence of the batch elements *)

Lemma pixel_offset (height width size j : Z) :
  0 <= height -> 0 <= width -> 0 <= size ->
  0 <= j < height * width * size ->
  exists h w c, 0 <= h < height /\ 0 <= w < width /\ 0 <= c < size /\
                j = (h * width + w) * size + c.
Proof.
  intros HH HW HS Hj.
  assert (0 < size) by nia. assert (0 < width) by nia.
  pose proof (Z.div_mod j size ltac:(lia)) as D1.
  pose proof (Z.mod_pos_bound j size ltac:(lia)) as B1.
  pose proof (Z.div_mod (j / size) width ltac:(lia)) as D2.
  pose proof (Z.mod_pos_bound (j / size) width ltac:(lia)) as B2.
  assert (Q0 : 0 <= j / size) by (apply Z.div_pos; lia).
  assert (Q1 : j / size < height * width)
    by (apply Z.div_lt_upper_bound; [lia | nia]).
  assert (R0 : 0 <= j / size / width) by (apply Z.div_pos; lia).
  assert (R1 : j / size / width < height)
    by (apply Z.div_lt_upper_bound; [lia | nia]).
  exists (j / size / width), ((j / size) mod width), (j mod size).
  repeat split; lia.
Qed.

Section BatchIndependence.
Context {T : Type} `{ScalarLaws T}.

Lemma neighbor_shift im_points im_points' height width n m X1 Y1 Z1 x y (b : best) :
  slice_eq (height * width * 3) im_points n im_points' m ->
  neighbor im_points height width n X1 Y1 Z1 x y b
  = neighbor im_points' height width m X1 Y1 Z1 x y b.
Proof.
  intros Hs. unfold neighbor.
  destruct (Z.geb_spec x 0), (Z.ltb_spec x width), (Z.geb_spec y 0),
    (Z.ltb_spec y height); simpl; try reflexivity.
  assert (Hread : forall i, 0 <= i < 3 ->
            read im_points ((n * height * width + y * width + x) * 3 + i)
            = read im_points' ((m * height * width + y * width + x) * 3 + i)).
  { intros i Hi.
    replace ((n * height * width + y * width + x) * 3 + i)
      with (n * (height * width * 3) + ((y * width + x) * 3 + i)) by ring.
    replace ((m * height * width + y * width + x) * 3 + i)
      with (m * (height * width * 3) + ((y * width + x) * 3 + i)) by ring.
    apply Hs. nia. }
  rewrite !Hread by lia. reflexivity.
Qed.

Lemma search_shift (op : ComputeFlowOp T) im_points im_points' height width
    n m h w X1 Y1 Z1 :
  slice_eq (height * width * 3) im_points n im_points' m ->
  search op im_points height width n h w X1 Y1 Z1
  = search op im_points' height width m h w X1 Y1 Z1.
Proof.
  intros Hs. unfold search, for_le.
  apply for_loop_ext. intros x b _. apply for_loop_ext. intros y b' _.
  now apply neighbor_shift.
Qed.

Lemma backproject_shift meta_data meta_data' num_meta_data n m h w (d : T) :
  42 <= num_meta_data ->
  slice_eq num_meta_data meta_data n meta_data' m ->
  backproject meta_data (n * num_meta_data) h w d
  = backproject meta_data' (m * num_meta_data) h w d.
Proof.
  intros HM Hs. unfold backproject. rewrite !Hs by lia. reflexivity.
Qed.

(** The contents of pixel [(h, w)] of two batch elements with the same
    inputs are the same. *)
Lemma pixel_post_shift (op : ComputeFlowOp T) bd ip idp md bd' ip' idp' md'
    height width num_channels num_meta_data n m h w td tp td' tp' :
  0 <= h < height -> 0 <= w < width -> 0 <= num_channels -> 42 <= num_meta_data ->
  flt (of_int 1000) (threshold_ op) = false ->
  slice_eq (height * width * num_channels) bd n bd' m ->
  slice_eq (height * width * 3) ip n ip' m ->
  slice_eq (height * width) idp n idp' m ->
  slice_eq num_meta_data md n md' m ->
  pixel_post op bd ip idp md height width num_channels n h w (n * num_meta_data) td tp ->
  pixel_post op bd' ip' idp' md' height width num_channels m h w (m * num_meta_data)
    td' tp' ->
  (exists P, point_at tp (index_of height width n h w) = Some P /\
             point_at tp' (index_of height width m h w) = Some P) /\
  forall c, 0 <= c < num_channels ->
    read td (index_of height width n h w * num_channels + c)
    = read td' (index_of height width m h w * num_channels + c).
Proof.
  intros Hh Hw HC HM Hguard Sbd Sip Sidp Smd.
  unfold pixel_post. intros (d & Hd & P1) (d' & Hd' & P2).
  assert (Hdepth : read idp (index_of height width n h w)
                   = read idp' (index_of height width m h w)).
  { unfold index_of.
    replace (n * height * width + h * width + w)
      with (n * (height * width) + (h * width + w)) by ring.
    replace (m * height * width + h * width + w)
      with (m * (height * width) + (h * width + w)) by ring.
    apply Sidp. nia. }
  rewrite Hdepth, Hd' in Hd. injection Hd as <-.
  destruct (fgt d' (of_int 0)).
  - destruct P1 as (X1 & Y1 & Z1 & b & HB & Hpt & HS & HD).
    destruct P2 as (X1' & Y1' & Z1' & b' & HB' & Hpt' & HS' & HD').
    rewrite (backproject_shift md md' num_meta_data n m h w d' HM Smd), HB' in HB.
    injection HB as <- <- <-.
    rewrite (search_shift op ip ip' height width n m h w X1' Y1' Z1' Sip), HS' in HS.
    injection HS as <-.
    split; [eauto|].
    intros c Hc. destruct (flt (dmin b') (threshold_ op)) eqn:Hthr.
    + destruct (HD c Hc) as (v & Hv & ->). destruct (HD' c Hc) as (v' & Hv' & ->).
      destruct (search_Ok _ _ _ _ _ _ _ _ _ _ _ HS') as [[-> _] | (_ & Hcand & _ & _)].
      { simpl in Hthr. congruence. }
      destruct (candidate_in_image _ _ _ _ _ _ _ _ _ _ Hcand) as [Hx Hy].
      assert (Hsrc : read bd (index_of height width n (fy b') (fx b') * num_channels + c)
                     = read bd' (index_of height width m (fy b') (fx b') * num_channels + c)).
      { unfold index_of.
        replace ((n * height * width + fy b' * width + fx b') * num_channels + c)
          with (n * (height * width * num_channels)
                + ((fy b' * width + fx b') * num_channels + c)) by ring.
        replace ((m * height * width + fy b' * width + fx b') * num_channels + c)
          with (m * (height * width * num_channels)
                + ((fy b' * width + fx b') * num_channels + c)) by ring.
        apply Sbd.
        assert ((fy b' * width + fx b' + 1) * num_channels
                <= height * width * num_channels)
          by (apply Z.mul_le_mono_nonneg_r; nia).
        assert (0 <= (fy b' * width + fx b') * num_channels) by nia. lia. }
      congruence.
    + rewrite (HD c Hc), (HD' c Hc). reflexivity.
  - destruct P1 as [Hpt HD], P2 as [Hpt' HD']. split; [eauto|].
    intros c Hc. rewrite (HD c Hc), (HD' c Hc). reflexivity.
Qed.

(** When [1000 < threshold_] does not hold, a batch element of the
    outputs is determined by the same batch element of the four inputs:
    if element [n] of one run's inputs and element [m] of another run's
    inputs are equal, so are element [n] of the first run's outputs and
    element [m] of the second's.  In particular, permuting the batch
    elements of the inputs permutes the outputs. *)
Theorem batch_element_independent (op : ComputeFlowOp T) heap0 heap1 heap0' heap1'
    (bottom_data bottom_points bottom_depth bottom_meta_data top_data top_points : Tensor T)
    (bottom_data' bottom_points' bottom_depth' bottom_meta_data' top_data' top_points'
       : Tensor T)
    (height width num_channels num_meta_data n m : Z) :
  Compute op heap0 heap1 bottom_data bottom_points bottom_depth bottom_meta_data
    = Ok (top_data, top_points) ->
  Compute op heap0' heap1' bottom_data' bottom_points' bottom_depth' bottom_meta_data'
    = Ok (top_data', top_points') ->
  flt (of_int 1000) (threshold_ op) = false ->
  dim_size bottom_data 1 = height -> dim_size bottom_data' 1 = height ->
  dim_size bottom_data 2 = width -> dim_size bottom_data' 2 = width ->
  dim_size bottom_data 3 = num_channels -> dim_size bottom_data' 3 = num_channels ->
  dim_size bottom_meta_data 3 = num_meta_data ->
  dim_size bottom_meta_data' 3 = num_meta_data ->
  0 <= height -> 0 <= width -> 0 <= num_channels -> 42 <= num_meta_data ->
  0 <= n < dim_size bottom_data 0 -> 0 <= m < dim_size bottom_data' 0 ->
  slice_eq (height * width * num_channels) (flat bottom_data) n (flat bottom_data') m ->
  slice_eq (height * width * 3) (flat bottom_points) n (flat bottom_points') m ->
  slice_eq (height * width) (flat bottom_depth) n (flat bottom_depth') m ->
  slice_eq num_meta_data (flat bottom_meta_data) n (flat bottom_meta_data') m ->
  slice_eq (height * width * num_channels) (flat top_data) n (flat top_data') m /\
  slice_eq (height * width * 3) (flat top_points) n (flat top_points') m.
Proof.
  intros Hrun Hrun' Hguard D1 D1' D2 D2' D3 D3' DM DM' HH HW HC HM Hn Hm
    Sbd Sip Sidp Smd.
  assert (Hpix : forall h w, 0 <= h < height -> 0 <= w < width ->
            (exists P, point_at (flat top_points) (index_of height width n h w) = Some P /\
                       point_at (flat top_points') (index_of height width m h w) = Some P) /\
            forall c, 0 <= c < num_channels ->
              read (flat top_data) (index_of height width n h w * num_channels + c)
              = read (flat top_data') (index_of height width m h w * num_channels + c)).
  { intros h w Hh Hw.
    pose proof (Compute_Ok _ _ _ _ _ _ _ _ _ Hrun n h w Hn ltac:(lia) ltac:(lia)) as Q.
    pose proof (Compute_Ok _ _ _ _ _ _ _ _ _ Hrun' m h w Hm ltac:(lia) ltac:(lia)) as Q'.
    rewrite D1, D2, D3, DM in Q. rewrite D1', D2', D3', DM' in Q'.
    exact (pixel_post_shift op _ _ _ _ _ _ _ _ height width num_channels num_meta_data
             n m h w _ _ _ _ Hh Hw HC HM Hguard Sbd Sip Sidp Smd Q Q'). }
  split.
  - intros j Hj.
    destruct (pixel_offset height width num_channels j HH HW HC Hj)
      as (h & w & c & Hh & Hw & Hc & ->).
    destruct (Hpix h w Hh Hw) as [_ Hfeat]. specialize (Hfeat c Hc).
    unfold index_of in Hfeat.
    replace (n * (height * width * num_channels) + ((h * width + w) * num_channels + c))
      with ((n * height * width + h * width + w) * num_channels + c) by ring.
    replace (m * (height * width * num_channels) + ((h * width + w) * num_channels + c))
      with ((m * height * width + h * width + w) * num_channels + c) by ring.
    exact Hfeat.
  - intros j Hj.
    destruct (pixel_offset height width 3 j HH HW ltac:(lia) Hj)
      as (h & w & c & Hh & Hw & Hc & ->).
    destruct (Hpix h w Hh Hw) as [([[X Y] Z] & Hp & Hp') _].
    apply point_at_Some in Hp, Hp'. unfold index_of in Hp, Hp'.
    destruct Hp as (R0 & R1 & R2), Hp' as (R0' & R1' & R2').
    replace (n * (height * width * 3) + ((h * width + w) * 3 + c))
      with ((n * height * width + h * width + w) * 3 + c) by ring.
    replace (m * (height * width * 3) + ((h * width + w) * 3 + c))
      with ((m * height * width + h * width + w) * 3 + c) by ring.
    assert (Hcases : c = 0 \/ c = 1 \/ c = 2) by lia.
    destruct Hcases as [-> | [-> | ->]]; congruence.
Qed.
End BatchIndependence.

Section KernelSizeZero.
Context {T : Type} `{ScalarLaws T}.

(** With [kernel_size = 0], when [1000 < threshold_] does not hold, the
    feature vector of every pixel of a successful run is all-zero or the
    input feature vector of the very same pixel: a closer point one pixel
    away is never used. *)
Theorem kernel_size_zero_transfer (op : ComputeFlowOp T) heap0 heap1
    (bottom_data bottom_points bottom_depth bottom_meta_data top_data top_points : Tensor T)
    (n h w : Z) :
  Compute op heap0 heap1 bottom_data bottom_points bottom_depth bottom_meta_data
    = Ok (top_data, top_points) ->
  kernel_size_ op = 0 ->
  flt (of_int 1000) (threshold_ op) = false ->
  0 <= n < dim_size bottom_data 0 ->
  0 <= h < dim_size bottom_data 1 ->
  0 <= w < dim_size bottom_data 2 ->
  let num_channels := dim_size bottom_data 3 in
  let index_pixel := index_of (dim_size bottom_data 1) (dim_size bottom_data 2) n h w in
  (forall c, 0 <= c < num_channels ->
     read (flat top_data) (index_pixel * num_channels + c) = Ok (of_int 0)) \/
  (forall c, 0 <= c < num_channels ->
     exists v,
       read (flat bottom_data) (index_pixel * num_channels + c) = Ok v /\
       read (flat top_data) (index_pixel * num_channels + c) = Ok v).
Proof.
  intros Hrun Hk Hguard Hn Hh Hw num_channels index_pixel.
  destruct (Compute_Ok _ _ _ _ _ _ _ _ _ Hrun n h w Hn Hh Hw)
    as (depth & Hdepth & Hpost).
  fold num_channels index_pixel in Hpost.
  destruct (fgt depth (of_int 0)); [|left; tauto].
  destruct Hpost as (X1 & Y1 & Z1 & b & Hback & Hpt & Hsearch & Hdata).
  destruct (flt (dmin b) (threshold_ op)) eqn:Hthr; [|left; exact Hdata].
  right.
  destruct (search_Ok _ _ _ _ _ _ _ _ _ _ _ Hsearch) as [[-> _] | (Hwin & _)].
  - simpl in Hthr. congruence.
  - rewrite Hk in Hwin. destruct Hwin as [Hx Hy].
    replace (fx b) with w in Hdata by lia. replace (fy b) with h in Hdata by lia.
    exact Hdata.
Qed.
End KernelSizeZero.

(** ** Instances of the further properties *)

(** Case analysis on an integer of a bounded range. *)
Ltac range_cases j Hj lo count :=
  let k := fresh "k" in
  let Hk := fresh "Hk" in
  assert (Hk : exists k : nat, j = lo + Z.of_nat k /\ (k < count)%nat)
    by (exists (Z.to_nat (j - lo)); lia);
  destruct Hk as (k & -> & Hk); clear Hj;
  repeat (destruct k as [|k]; [vm_compute; reflexivity | try (exfalso; lia)]).

Lemma Compute_output_sizes_witness :
  shape ten_to_eighteen_out = [1; 3; 3; 1] /\
  shape self_points = [1; 3; 3; 3] /\
  length (flat ten_to_eighteen_out) = Z.to_nat (1 * 3 * 3 * 1) /\
  length (flat self_points) = Z.to_nat (1 * 3 * 3 * 3).
Proof.
  assert (Hrun : Compute self_op junk junk ten_to_eighteen self_points self_depth self_meta
                 = Ok (ten_to_eighteen_out, self_points)) by (vm_compute; reflexivity).
  exact (Compute_output_sizes self_op junk junk ten_to_eighteen self_points self_depth
           self_meta ten_to_eighteen_out self_points Hrun).
Defined.

Lemma depth_nan_gated_witness :
  fisnan PrimFloat.nan = true /\
  (forall c, 0 <= c < 1 ->
     read [double_of_int 0] (index_of 1 1 0 0 0 * 1 + c) = Ok (of_int 0)) /\
  point_at [PrimFloat.nan; PrimFloat.nan; PrimFloat.nan] (index_of 1 1 0 0 0)
  = Some (NAN, NAN, NAN).
Proof.
  assert (Hrun : Compute self_op junk junk one_data one_points nan_depth one_meta
                 = Ok (tensor_of [1;1;1;1] [double_of_int 0],
                       tensor_of [1;1;1;3] [PrimFloat.nan; PrimFloat.nan; PrimFloat.nan]))
    by (vm_compute; reflexivity).
  assert (Hdepth : read (flat nan_depth) (index_of 1 1 0 0 0) = Ok PrimFloat.nan)
    by (vm_compute; reflexivity).
  assert (Hnan : fisnan PrimFloat.nan = true) by (vm_compute; reflexivity).
  split; [exact Hnan|].
  exact (depth_nan_gated self_op junk junk one_data one_points nan_depth one_meta
           (tensor_of [1;1;1;1] [double_of_int 0])
           (tensor_of [1;1;1;3] [PrimFloat.nan; PrimFloat.nan; PrimFloat.nan])
           0 0 0 PrimFloat.nan Hrun ltac:(cbn; lia) ltac:(cbn; lia) ltac:(cbn; lia)
           Hdepth Hnan).
Defined.

(** With [kernel_size = 0] the centre pixel of [tie_points] matches
    itself although [(0, 0)] is as close. *)
Lemma search_kernel_size_zero_witness :
  search zero_op tie_points 3 3 0 1 1 (double_of_int 5) (double_of_int 5) (double_of_int 5)
  = neighbor tie_points 3 3 0 (double_of_int 5) (double_of_int 5) (double_of_int 5)
      1 1 best_init /\
  search zero_op tie_points 3 3 0 1 1 (double_of_int 5) (double_of_int 5) (double_of_int 5)
  = Ok {| dmin := double_of_int 0; fx := 1; fy := 1 |}.
Proof.
  split; [|vm_compute; reflexivity].
  exact (proj1 (search_kernel_size_zero zero_op tie_points 3 3 0 1 1
                  (double_of_int 5) (double_of_int 5) (double_of_int 5) eq_refl)).
Defined.

Lemma search_batch_local_witness :
  search self_op points_a 2 1 1 0 0 (double_of_int 5) (double_of_int 5) (double_of_int 1)
  = search self_op points_b 2 1 1 0 0 (double_of_int 5) (double_of_int 5) (double_of_int 1).
Proof.
  assert (Hsame : same_inside (1 * (2 * 1) * 3) ((1 + 1) * (2 * 1) * 3) points_a points_b).
  { intros i Hi. range_cases i Hi 6 6%nat. }
  exact (search_batch_local self_op points_a points_b 2 1 1 0 0
           (double_of_int 5) (double_of_int 5) (double_of_int 1) Hsame).
Defined.

Lemma guarded_transfer_witness :
  flt (of_int 1000) (threshold_ self_op) = false /\
  ((forall c, 0 <= c < dim_size ten_to_eighteen 3 ->
      read (flat ten_to_eighteen_out)
        (index_of (dim_size ten_to_eighteen 1) (dim_size ten_to_eighteen 2) 0 0 0
         * dim_size ten_to_eighteen 3 + c) = Ok (of_int 0)) \/
   (exists X1 Y1 Z1 x y dis,
      point_at (flat self_points)
        (index_of (dim_size ten_to_eighteen 1) (dim_size ten_to_eighteen 2) 0 0 0)
      = Some (X1, Y1, Z1) /\
      in_window (kernel_size_ self_op) 0 0 x y /\
      0 <= x < dim_size ten_to_eighteen 2 /\ 0 <= y < dim_size ten_to_eighteen 1 /\
      candidate (flat self_points) (dim_size ten_to_eighteen 1)
        (dim_size ten_to_eighteen 2) 0 X1 Y1 Z1 x y = Some dis /\
      flt dis (threshold_ self_op) = true /\
      forall c, 0 <= c < dim_size ten_to_eighteen 3 ->
        exists v,
          read (flat ten_to_eighteen)
            (index_of (dim_size ten_to_eighteen 1) (dim_size ten_to_eighteen 2) 0 y x
             * dim_size ten_to_eighteen 3 + c) = Ok v /\
          read (flat ten_to_eighteen_out)
            (index_of (dim_size ten_to_eighteen 1) (dim_size ten_to_eighteen 2) 0 0 0
             * dim_size ten_to_eighteen 3 + c) = Ok v)).
Proof.
  assert (Hrun : Compute self_op junk junk ten_to_eighteen self_points self_depth self_meta
                 = Ok (ten_to_eighteen_out, self_points)) by (vm_compute; reflexivity).
  assert (Hguard : flt (of_int 1000) (threshold_ self_op) = false)
    by (vm_compute; reflexivity).
  split; [exact Hguard|].
  exact (guarded_transfer self_op junk junk ten_to_eighteen self_points self_depth
           self_meta ten_to_eighteen_out self_points 0 0 0 Hrun Hguard
           ltac:(cbn; lia) ltac:(cbn; lia) ltac:(cbn; lia)).
Defined.

Lemma close_neighbor_transfers_witness :
  exists x y dis,
    in_window (kernel_size_ self_op) 0 0 x y /\
    candidate (flat self_points) 3 3 0 (double_of_int 0) (double_of_int 0)
      (double_of_int 1) x y = Some dis /\
    fle dis (double_of_int 1) = true /\ flt dis (threshold_ self_op) = true /\
    forall c, 0 <= c < 1 ->
      exists v,
        read (flat ten_to_eighteen) (index_of 3 3 0 y x * 1 + c) = Ok v /\
        read (flat ten_to_eighteen_out) (index_of 3 3 0 0 0 * 1 + c) = Ok v.
Proof.
  assert (Hrun : Compute self_op junk junk ten_to_eighteen self_points self_depth self_meta
                 = Ok (ten_to_eighteen_out, self_points)) by (vm_compute; reflexivity).
  assert (Hdepth : read (flat self_depth) (index_of 3 3 0 0 0) = Ok (double_of_int 1))
    by (vm_compute; reflexivity).
  assert (Hgt : fgt (double_of_int 1) (of_int 0) = true) by (vm_compute; reflexivity).
  assert (Hpt : point_at (flat self_points) (index_of 3 3 0 0 0)
                = Some (double_of_int 0, double_of_int 0, double_of_int 1))
    by (vm_compute; reflexivity).
  assert (Hc : candidate (flat self_points) 3 3 0 (double_of_int 0) (double_of_int 0)
                 (double_of_int 1) 1 0 = Some (double_of_int 1))
    by (vm_compute; reflexivity).
  assert (H1 : flt (double_of_int 1) (of_int 1000) = true) by (vm_compute; reflexivity).
  assert (H2 : flt (double_of_int 1) (threshold_ self_op) = true)
    by (vm_compute; reflexivity).
  assert (Hrange : in_int_range (kernel_size_ self_op) (dim_size ten_to_eighteen 0)
                     (dim_size ten_to_eighteen 1) (dim_size ten_to_eighteen 2)
                     (dim_size ten_to_eighteen 3) (dim_size self_meta 3))
    by (unfold in_int_range, INT_MAX; cbn; lia).
  exact (close_neighbor_transfers self_op junk junk ten_to_eighteen self_points self_depth
           self_meta ten_to_eighteen_out self_points 0 0 0
           (double_of_int 1) (double_of_int 0) (double_of_int 0) (double_of_int 1)
           1 0 (double_of_int 1) Hrun Hrange ltac:(cbn; lia) ltac:(cbn; lia) ltac:(cbn; lia)
           Hdepth Hgt Hpt ltac:(unfold in_window; simpl; lia) Hc H1 H2).
Defined.

Lemma Compute_safe_witness :
  exists top_data top_points,
    Compute self_op junk junk ten_to_eighteen self_points self_depth self_meta
    = Ok (top_data, top_points) /\
    has_shape top_data [1; 3; 3; 1] /\ has_shape top_points [1; 3; 3; 3].
Proof.
  assert (Hguard : flt (of_int 1000) (threshold_ self_op) = false)
    by (vm_compute; reflexivity).
  assert (Hrange : in_int_range (kernel_size_ self_op) 1 3 3 1 48)
    by (unfold in_int_range, INT_MAX; cbn; lia).
  exact (Compute_safe self_op junk junk ten_to_eighteen self_points self_depth self_meta
           1 3 3 1 48 Hrange ltac:(lia)
           (conj eq_refl eq_refl) (conj eq_refl eq_refl) (conj eq_refl eq_refl)
           (conj eq_refl eq_refl) Hguard).
Defined.

Lemma Compute_heap_independent_witness :
  Compute self_op junk' junk' ten_to_eighteen self_points self_depth self_meta
  = Ok (ten_to_eighteen_out, self_points).
Proof.
  assert (Hrun : Compute self_op junk junk ten_to_eighteen self_points self_depth self_meta
                 = Ok (ten_to_eighteen_out, self_points)) by (vm_compute; reflexivity).
  exact (Compute_heap_independent self_op junk junk junk' junk' ten_to_eighteen
           self_points self_depth self_meta (ten_to_eighteen_out, self_points)
           ltac:(cbn; lia) ltac:(cbn; lia) ltac:(cbn; lia) ltac:(cbn; lia) Hrun).
Defined.

(** Batch element 0 of a run and batch element 2 of the run on the
    reversed batch. *)
Lemma batch_element_independent_witness :
  slice_eq (2 * 1 * 1) (flat triple_data) 0 (flat reversed_top_data) 2 /\
  slice_eq (2 * 1 * 3) (flat triple_top_points) 0 (flat reversed_top_points) 2.
Proof.
  pose (sigma := [2; 1; 0]%nat).
  assert (Hrun : Compute self_op junk junk triple_data triple_points triple_depth perm_meta
                 = Ok (triple_data, triple_top_points)) by (vm_compute; reflexivity).
  assert (Hrun' : Compute self_op junk' junk' (permute_batches sigma triple_data)
                    (permute_batches sigma triple_points)
                    (permute_batches sigma triple_depth)
                    (permute_batches sigma perm_meta)
                  = Ok (reversed_top_data, reversed_top_points))
    by (vm_compute; reflexivity).
  assert (Hguard : flt (of_int 1000) (threshold_ self_op) = false)
    by (vm_compute; reflexivity).
  assert (S1 : slice_eq (2 * 1 * 1) (flat triple_data) 0
                 (flat (permute_batches sigma triple_data)) 2).
  { intros j Hj. range_cases j Hj 0 2%nat. }
  assert (S2 : slice_eq (2 * 1 * 3) (flat triple_points) 0
                 (flat (permute_batches sigma triple_points)) 2).
  { intros j Hj. range_cases j Hj 0 6%nat. }
  assert (S3 : slice_eq (2 * 1) (flat triple_depth) 0
                 (flat (permute_batches sigma triple_depth)) 2).
  { intros j Hj. range_cases j Hj 0 2%nat. }
  assert (S4 : slice_eq 48 (flat perm_meta) 0 (flat (permute_batches sigma perm_meta)) 2).
  { intros j Hj. range_cases j Hj 0 48%nat. }
  exact (batch_element_independent self_op junk junk junk' junk'
           triple_data triple_points triple_depth perm_meta triple_data triple_top_points
           (permute_batches sigma triple_data) (permute_batches sigma triple_points)
           (permute_batches sigma triple_depth) (permute_batches sigma perm_meta)
           reversed_top_data reversed_top_points
           2 1 1 48 0 2 Hrun Hrun' Hguard
           eq_refl eq_refl eq_refl eq_refl eq_refl eq_refl eq_refl eq_refl
           ltac:(lia) ltac:(lia) ltac:(lia) ltac:(lia) ltac:(cbn; lia) ltac:(cbn; lia)
           S1 S2 S3 S4).
Defined.

Lemma kernel_size_zero_transfer_witness :
  (forall c, 0 <= c < 1 ->
     read (flat ten_to_eighteen_out) (index_of 3 3 0 2 1 * 1 + c) = Ok (of_int 0)) \/
  (forall c, 0 <= c < 1 ->
     exists v,
       read (flat ten_to_eighteen) (index_of 3 3 0 2 1 * 1 + c) = Ok v /\
       read (flat ten_to_eighteen_out) (index_of 3 3 0 2 1 * 1 + c) = Ok v).
Proof.
  assert (Hrun : Compute zero_op junk junk ten_to_eighteen self_points self_depth self_meta
                 = Ok (ten_to_eighteen_out, self_points)) by (vm_compute; reflexivity).
  assert (Hguard : flt (of_int 1000) (threshold_ zero_op) = false)
    by (vm_compute; reflexivity).
  exact (kernel_size_zero_transfer zero_op junk junk ten_to_eighteen self_points
           self_depth self_meta ten_to_eighteen_out self_points 0 2 1 Hrun eq_refl Hguard
           ltac:(cbn; lia) ltac:(cbn; lia) ltac:(cbn; lia)).
Defined.
